(** * useGoogleDataEnrichment: the batch enricher and the stats reporter

    A shallow embedding of [src/hooks/useGoogleDataEnrichment.ts].

    The hook keeps one piece of React state ([EnrichmentProgress]) and
    returns two asynchronous callbacks.  They are modelled in a small monad
    that threads the live React state, records every effect in a trace
    (store queries, enrichment invocations, console output, timers, state
    updates) and propagates thrown exceptions, so that [try]/[catch]/
    [finally] read as in the source.  The Supabase client is an interface:
    the theorems about the callbacks hold for any client, and the two
    candidate queries are also read against a model of the record store. *)

From Stdlib Require Import String List ZArith Arith Bool Lia Permutation.
From Stdlib Require Import Floats.PrimFloat Floats.FloatOps Floats.SpecFloat.
From Stdlib Require Import Floats.FloatAxioms.
From Stdlib Require Import Numbers.Cyclic.Int63.Uint63.
From Equations Require Import Equations.
Import ListNotations.

Local Open Scope string_scope.
Local Open Scope list_scope.
Local Open Scope nat_scope.

(* ===================================================================== *)
(** ** JavaScript values and built-ins used by the hook *)
(* ===================================================================== *)

Module JS.

(** [x || []] on a nullable array. *)
Definition or_empty {A : Type} (x : option (list A)) : list A :=
  match x with
  | Some l => l
  | None => []
  end.

(** [x?.length || 0] on a nullable array. *)
Definition length_or_0 {A : Type} (x : option (list A)) : nat :=
  match x with
  | Some l => length l
  | None => 0
  end.

(** [a || b] on nullable objects. *)
Definition or_else {A : Type} (a b : option A) : option A :=
  match a with
  | Some _ => a
  | None => b
  end.

(** [l.slice(start, end)] for non-negative indices: the elements at
    positions [start <= k < end], both bounds clamped to the length. *)
Definition slice {A : Type} (l : list A) (start end_ : nat) : list A :=
  firstn (end_ - start) (skipn start l).

(** An array length as a JS number.  Array lengths are below [2^32], so
    the conversion to binary64 is exact. *)
Definition number (n : nat) : float :=
  PrimFloat.of_uint63 (Uint63.of_Z (Z.of_nat n)).

(** [Math.round]: the integer closest to [x], ties going up, that is
    [floor (x + 1/2)] computed exactly.  A finite double is
    [(-1)^s * m * 2^e]; the result is returned as an integer.  Zeros
    round to [0]; NaN and the infinities have no integer value and are
    sent to [0] (the one call site only passes finite quotients). *)
Definition Math_round (x : float) : Z :=
  match Prim2SF x with
  | S754_finite s m e =>
      let n := if s then Z.neg m else Z.pos m in
      if (0 <=? e)%Z then (n * 2 ^ e)%Z
      else ((2 * n + 2 ^ (- e)) / 2 ^ (1 - e))%Z
  | _ => 0%Z
  end.

End JS.

(* ===================================================================== *)
(** ** Data model *)
(* ===================================================================== *)

(** Error values ([error] objects, rejection reasons). *)
Definition Err := string.

(** The state of an awaited promise once it has settled. *)
Inductive Settled (A : Type) : Type :=
| Fulfilled (value : A)
| Rejected (reason : Err).
Arguments Fulfilled {A} value.
Arguments Rejected {A} reason.

(** A row of the preschool table, with the five selected columns. *)
Module Preschool.
Record t : Type := Build {
  id : string;
  Namn : option string;
  Adress : option string;
  Latitud : option float;
  Longitud : option float
}.
End Preschool.

(** The progress state held by [useState]. *)
Module EnrichmentProgress.
Record t : Type := Build {
  total : nat;
  processed : nat;
  errors : nat;
  isRunning : bool
}.

(** The initial value passed to [useState]. *)
Definition initial : t :=
  {| total := 0; processed := 0; errors := 0; isRunning := false |}.
End EnrichmentProgress.

(** The object returned by [getEnrichmentStats]. *)
Module EnrichmentStats.
Record t : Type := Build {
  total : nat;
  enriched : nat;
  percentage : Z
}.
End EnrichmentStats.

(* ===================================================================== *)
(** ** The Supabase client interface *)
(* ===================================================================== *)

Module Supabase.

(** One link of a query-builder chain. *)
Inductive Filter : Type :=
| not_is_null (column : string)                    (* .not(column, 'is', null) *)
| not_in (column : string) (values : list string)  (* .not(column, 'in', values) *)
| in_ (column : string) (values : list string).    (* .in(column, values) *)

(** A query as built by [.select(..)] followed by filters and a limit. *)
Record Query : Type := {
  select : list string;
  count : option string;
  filters : list Filter;
  limit : option nat
}.

(** What awaiting a query yields: [{ data, error }]. *)
Record Response (Row : Type) : Type := {
  data : option (list Row);
  error : option Err
}.
Arguments data {Row} r.
Arguments error {Row} r.

(** The body sent to the edge function. *)
Record InvokeBody : Type := {
  preschoolId : string;
  lat : option float;
  lng : option float;
  address : option string;
  name : option string
}.

(** What awaiting [functions.invoke] yields; only [error] is read. *)
Record InvokeResponse : Type := {
  enrichError : option Err
}.

(** A row of the table of enriched records.  Only the number of rows is
    read by the hook. *)
Record GoogleData : Type := {
  preschool_id : string;
  updated_at : Z
}.

(** The client.  Queries and invocations are answered by the outside
    world: each either fulfils with a response or rejects.  The [nat]
    given to [functions_invoke] is the position of the call among the
    invocations of the run, so that two calls with equal bodies may be
    answered differently. *)
Record Client : Type := {
  from_Forskolor : Query -> Settled (Response Preschool.t);
  from_preschool_google_data : Query -> Settled (Response GoogleData);
  functions_invoke : nat -> string -> InvokeBody -> Settled InvokeResponse
}.

End Supabase.
Import Supabase.

(** The environment of one call of a callback: the client, the clock, and
    the order in which the concurrent calls of a batch settle.
    [settle_order i] drives [arrange] below for the batch starting at
    index [i]; every list of numbers is a valid order. *)
Record World : Type := {
  supabase : Client;
  now : Z;
  settle_order : nat -> list nat
}.

(* ===================================================================== *)
(** ** Effects *)
(* ===================================================================== *)

(** Console messages, by the line that prints them. *)
Inductive Message : Type :=
| msg_starting
| msg_found (n : nat)
| msg_completed (processed errors : nat)
| msg_fetch_error (e : Err)
| msg_enrich_error (id : string) (e : Err)
| msg_processing_error (id : string) (e : Err)
| msg_process_error (e : Err)
| msg_stats_error (e : Err).

(** Observable effects.  [SetProgress p] records the state [p] produced by
    one [setProgress] call: the states of a trace are its observation
    points. *)
Inductive Event : Type :=
| Console_log (m : Message)
| Console_error (m : Message)
| Select (table : string) (q : Query)
| Invoke (fn : string) (body : InvokeBody)
| AllSettled (n : nat)
| SetTimeout (ms : nat)
| SetProgress (p : EnrichmentProgress.t).

Definition Trace := list Event.

(** How a computation ends. *)
Inductive Completion (A : Type) : Type :=
| Normal (a : A)
| Throw (e : Err).
Arguments Normal {A} a.
Arguments Throw {A} e.

(** Computations: from the live progress state to a trace, the new state
    and a completion. *)
Definition M (A : Type) : Type :=
  EnrichmentProgress.t -> Trace * EnrichmentProgress.t * Completion A.

Definition ret {A : Type} (a : A) : M A :=
  fun s => ([], s, Normal a).

Definition bind {A B : Type} (c : M A) (k : A -> M B) : M B :=
  fun s =>
    match c s with
    | (t1, s1, Normal a) =>
        match k a s1 with
        | (t2, s2, r) => (t1 ++ t2, s2, r)
        end
    | (t1, s1, Throw e) => (t1, s1, Throw e)
    end.

Declare Scope js_scope.
Delimit Scope js_scope with js.
Notation "x <- c ;; k" := (bind c (fun x => k))
  (at level 61, c at next level, right associativity) : js_scope.
Notation "c ;; k" := (bind c (fun _ => k))
  (at level 61, right associativity) : js_scope.
Local Open Scope js_scope.

Definition emit (ev : Event) : M unit :=
  fun s => ([ev], s, Normal tt).

(** [setProgress(prev => f prev)]. *)
Definition setProgress (f : EnrichmentProgress.t -> EnrichmentProgress.t) : M unit :=
  fun s => ([SetProgress (f s)], f s, Normal tt).

(** [await p] for a settled promise. *)
Definition await {A : Type} (p : Settled A) : M A :=
  fun s =>
    match p with
    | Fulfilled v => ([], s, Normal v)
    | Rejected e => ([], s, Throw e)
    end.

(** [try { body } catch (error) { handler error }]. *)
Definition try_catch {A : Type} (body : M A) (handler : Err -> M A) : M A :=
  fun s =>
    match body s with
    | (t1, s1, Throw e) =>
        match handler e s1 with
        | (t2, s2, r) => (t1 ++ t2, s2, r)
        end
    | r => r
    end.

(** [try { body } finally { fin }]. *)
Definition try_finally {A : Type} (body : M A) (fin : M unit) : M A :=
  fun s =>
    match body s with
    | (t1, s1, r) =>
        match fin s1 with
        | (t2, s2, Normal _) => (t1 ++ t2, s2, r)
        | (t2, s2, Throw e) => (t1 ++ t2, s2, Throw e)
        end
    end.

(** A promise handed to [Promise.allSettled]: a rejection is recorded in
    the result array and not thrown. *)
Definition settle (c : M unit) : M unit :=
  try_catch c (fun _ => ret tt).

(** [f] applied to the elements of [l] in turn, stopping at the first
    exception. *)
Fixpoint for_each {A : Type} (f : A -> M unit) (l : list A) : M unit :=
  match l with
  | [] => ret tt
  | x :: xs => f x ;; for_each f xs
  end.

(** The states recorded in a trace, in order. *)
Fixpoint observations (t : Trace) : list EnrichmentProgress.t :=
  match t with
  | [] => []
  | SetProgress p :: t' => p :: observations t'
  | _ :: t' => observations t'
  end.

(** The enrichment invocations recorded in a trace, in order. *)
Fixpoint invocations (t : Trace) : list InvokeBody :=
  match t with
  | [] => []
  | Invoke _ b :: t' => b :: invocations t'
  | _ :: t' => invocations t'
  end.

(** The store queries recorded in a trace, in order. *)
Fixpoint queries (t : Trace) : list (string * Query) :=
  match t with
  | [] => []
  | Select tbl q :: t' => (tbl, q) :: queries t'
  | _ :: t' => queries t'
  end.

(* ===================================================================== *)
(** ** The hook *)
(* ===================================================================== *)

(** The first candidate query (lines 31-43). *)
Definition preschoolsWithoutData_query : Query :=
  {| select := ["id"; "Namn"; "Adress"; "Latitud"; "Longitud"];
     count := None;
     filters := [not_is_null "Latitud"; not_is_null "Longitud"; not_in "id" []];
     limit := Some 25 |}.

(** The second candidate query (lines 46-58). *)
Definition preschoolsWithOldData_query : Query :=
  {| select := ["id"; "Namn"; "Adress"; "Latitud"; "Longitud"];
     count := None;
     filters := [not_is_null "Latitud"; not_is_null "Longitud"; in_ "id" []];
     limit := Some 25 |}.

(** The two counting queries of [getEnrichmentStats] (lines 122-129). *)
Definition totalPreschools_query : Query :=
  {| select := ["id"];
     count := Some "exact";
     filters := [not_is_null "Latitud"];
     limit := None |}.

Definition enrichedPreschools_query : Query :=
  {| select := ["id"];
     count := Some "exact";
     filters := [];
     limit := None |}.

Definition enricher : string := "google-places-enricher".

Definition batchSize : nat := 3.

(** The [body] of the invocation for one preschool (lines 80-86). *)
Definition invoke_body (preschool : Preschool.t) : InvokeBody :=
  {| preschoolId := Preschool.id preschool;
     lat := Preschool.Latitud preschool;
     lng := Preschool.Longitud preschool;
     address := Preschool.Adress preschool;
     name := Preschool.Namn preschool |}.

(** The three state updates of the per-candidate callback. *)
Definition count_error (prev : EnrichmentProgress.t) : EnrichmentProgress.t :=
  {| EnrichmentProgress.total := EnrichmentProgress.total prev;
     EnrichmentProgress.processed := EnrichmentProgress.processed prev;
     EnrichmentProgress.errors := EnrichmentProgress.errors prev + 1;
     EnrichmentProgress.isRunning := EnrichmentProgress.isRunning prev |}.

Definition count_processed (prev : EnrichmentProgress.t) : EnrichmentProgress.t :=
  {| EnrichmentProgress.total := EnrichmentProgress.total prev;
     EnrichmentProgress.processed := EnrichmentProgress.processed prev + 1;
     EnrichmentProgress.errors := EnrichmentProgress.errors prev;
     EnrichmentProgress.isRunning := EnrichmentProgress.isRunning prev |}.

Definition count_processed_and_error (prev : EnrichmentProgress.t) : EnrichmentProgress.t :=
  {| EnrichmentProgress.total := EnrichmentProgress.total prev;
     EnrichmentProgress.processed := EnrichmentProgress.processed prev + 1;
     EnrichmentProgress.errors := EnrichmentProgress.errors prev + 1;
     EnrichmentProgress.isRunning := EnrichmentProgress.isRunning prev |}.

(** The other three state updates: run start (line 23), candidate count
    (line 69) and run end (line 116). *)
Definition start_run (prev : EnrichmentProgress.t) : EnrichmentProgress.t :=
  {| EnrichmentProgress.total := EnrichmentProgress.total prev;
     EnrichmentProgress.processed := 0;
     EnrichmentProgress.errors := 0;
     EnrichmentProgress.isRunning := true |}.

Definition set_total (n : nat) (prev : EnrichmentProgress.t) : EnrichmentProgress.t :=
  {| EnrichmentProgress.total := n;
     EnrichmentProgress.processed := EnrichmentProgress.processed prev;
     EnrichmentProgress.errors := EnrichmentProgress.errors prev;
     EnrichmentProgress.isRunning := EnrichmentProgress.isRunning prev |}.

Definition stop_run (prev : EnrichmentProgress.t) : EnrichmentProgress.t :=
  {| EnrichmentProgress.total := EnrichmentProgress.total prev;
     EnrichmentProgress.processed := EnrichmentProgress.processed prev;
     EnrichmentProgress.errors := EnrichmentProgress.errors prev;
     EnrichmentProgress.isRunning := false |}.

(** The order in which the calls of a batch settle.  Each element is
    inserted at the position picked for it among those placed so far; the
    result is always a permutation of [l], and every permutation of [l] is
    obtained from some [picks]. *)
Fixpoint arrange {A : Type} (picks : list nat) (l : list A) : list A :=
  match l with
  | [] => []
  | x :: xs =>
      let rest := arrange (tl picks) xs in
      let k := hd 0 picks in
      firstn k rest ++ x :: skipn k rest
  end.

(** Pairs every element with its index, counting from [i]. *)
Fixpoint indexed {A : Type} (i : nat) (l : list A) : list (nat * A) :=
  match l with
  | [] => []
  | x :: xs => (i, x) :: indexed (S i) xs
  end.

Section Hook.

Variable w : World.

(** Awaiting a query on the preschool table. *)
Definition select_Forskolor (q : Query) : M (Response Preschool.t) :=
  emit (Select "Forskolor" q) ;;
  await (from_Forskolor (supabase w) q).

(** Awaiting a query on the table of enriched records. *)
Definition select_preschool_google_data (q : Query) : M (Response GoogleData) :=
  emit (Select "preschool_google_data" q) ;;
  await (from_preschool_google_data (supabase w) q).

(** The per-candidate callback from the point where its invocation has
    settled (lines 78-102, after the [await] of line 79). *)
Definition enrich_settled (preschool : Preschool.t)
           (settled : Settled InvokeResponse) : M unit :=
  try_catch
    (response <- await settled ;;
     match enrichError response with
     | Some enrichError =>
         emit (Console_error (msg_enrich_error (Preschool.id preschool) enrichError)) ;;
         setProgress count_error
     | None => ret tt
     end ;;
     setProgress count_processed)
    (fun error =>
       emit (Console_error (msg_processing_error (Preschool.id preschool) error)) ;;
       setProgress count_processed_and_error).

(** [await Promise.allSettled(batch.map(async preschool => ..))] for the
    batch that starts at index [i].  [map] runs every callback up to its
    [await], which issues the invocations in list order; the callbacks
    then resume one at a time, as their invocations settle. *)
Definition process_batch (i : nat) (batch : list Preschool.t) : M unit :=
  for_each (fun preschool => emit (Invoke enricher (invoke_body preschool))) batch ;;
  for_each
    (fun '(k, preschool) =>
       settle
         (enrich_settled preschool
            (functions_invoke (supabase w) k enricher (invoke_body preschool))))
    (arrange (settle_order w i) (indexed i batch)) ;;
  emit (AllSettled (length batch)).

(** The [for] loop of lines 73-110, from index [i]. *)
Equations? batches (preschoolsToEnrich : list Preschool.t) (i : nat) : M unit
  by wf (length preschoolsToEnrich - i) lt :=
  batches preschoolsToEnrich i with lt_dec i (length preschoolsToEnrich) := {
    | left _ =>
        process_batch i (JS.slice preschoolsToEnrich i (i + batchSize)) ;;
        (if i + batchSize <? length preschoolsToEnrich
         then emit (SetTimeout 2000)
         else ret tt) ;;
        batches preschoolsToEnrich (i + batchSize)
    | right _ => ret tt }.
Proof. unfold batchSize. lia. Qed.

(** [enrichMissingData] (lines 19-118).  [progress] is the render
    snapshot the callback closes over; the live state is the monad's.
    [sevenDaysAgo] is computed from the clock (in milliseconds) and, as
    in the source, used by neither query. *)
Definition enrichMissingData (progress : EnrichmentProgress.t) : M unit :=
  if EnrichmentProgress.isRunning progress then ret tt
  else
    emit (Console_log msg_starting) ;;
    setProgress start_run ;;
    try_finally
      (try_catch
         (let sevenDaysAgo := (now w - 7 * 86400000)%Z in
          r1 <- select_Forskolor preschoolsWithoutData_query ;;
          r2 <- select_Forskolor preschoolsWithOldData_query ;;
          match JS.or_else (error r1) (error r2) with
          | Some fetch_error => emit (Console_error (msg_fetch_error fetch_error))
          | None =>
              let preschools := JS.or_empty (data r1) ++ JS.or_empty (data r2) in
              let preschoolsToEnrich := preschools in
              emit (Console_log (msg_found (length preschoolsToEnrich))) ;;
              setProgress (set_total (length preschoolsToEnrich)) ;;
              batches preschoolsToEnrich 0 ;;
              emit (Console_log
                      (msg_completed
                         (EnrichmentProgress.processed progress
                          + length preschoolsToEnrich)
                         (EnrichmentProgress.errors progress)))
          end)
         (fun error => emit (Console_error (msg_process_error error))))
      (setProgress stop_run).

(** [getEnrichmentStats] (lines 120-141). *)
Definition getEnrichmentStats : M EnrichmentStats.t :=
  try_catch
    (r1 <- select_Forskolor totalPreschools_query ;;
     let totalPreschools := data r1 in
     r2 <- select_preschool_google_data enrichedPreschools_query ;;
     let enrichedPreschools := data r2 in
     ret {| EnrichmentStats.total := JS.length_or_0 totalPreschools;
            EnrichmentStats.enriched := JS.length_or_0 enrichedPreschools;
            EnrichmentStats.percentage :=
              if JS.length_or_0 totalPreschools =? 0 then 0%Z
              else JS.Math_round
                     (PrimFloat.mul
                        (PrimFloat.div
                           (JS.number (JS.length_or_0 enrichedPreschools))
                           (JS.number (JS.length_or_0 totalPreschools)))
                        100%float) |})
    (fun error =>
       emit (Console_error (msg_stats_error error)) ;;
       ret {| EnrichmentStats.total := 0;
              EnrichmentStats.enriched := 0;
              EnrichmentStats.percentage := 0%Z |}).

End Hook.

(** What one render of the hook returns for the state [progress]. *)
Record HookResult : Type := {
  hook_progress : EnrichmentProgress.t;
  hook_enrichMissingData : M unit;
  hook_getEnrichmentStats : M EnrichmentStats.t
}.

Definition useGoogleDataEnrichment (w : World) (progress : EnrichmentProgress.t)
  : HookResult :=
  {| hook_progress := progress;
     hook_enrichMissingData := enrichMissingData w progress;
     hook_getEnrichmentStats := getEnrichmentStats w |}.

(* ===================================================================== *)
(** ** Reading a run *)
(* ===================================================================== *)

Definition trace_of {A : Type} (r : Trace * EnrichmentProgress.t * Completion A) : Trace :=
  fst (fst r).

Definition state_of {A : Type} (r : Trace * EnrichmentProgress.t * Completion A)
  : EnrichmentProgress.t :=
  snd (fst r).

Definition completion_of {A : Type} (r : Trace * EnrichmentProgress.t * Completion A)
  : Completion A :=
  snd r.

(** An invocation fails when it rejects or when its response carries an
    error. *)
Definition failed (settled : Settled InvokeResponse) : bool :=
  match settled with
  | Fulfilled {| enrichError := None |} => false
  | Fulfilled {| enrichError := Some _ |} => true
  | Rejected _ => true
  end.

(** Whether the [k]-th invocation of the run, for [preschool], fails. *)
Definition invocation_failed (w : World) (call : nat * Preschool.t) : bool :=
  failed (functions_invoke (supabase w) (fst call) enricher (invoke_body (snd call))).

(** The number of failing invocations over the candidates [l], the first
    of them being call number [i]. *)
Definition failures_from (w : World) (i : nat) (l : list Preschool.t) : nat :=
  length (filter (invocation_failed w) (indexed i l)).

Definition failures (w : World) (l : list Preschool.t) : nat :=
  failures_from w 0 l.

(** The candidates a run fetches when both queries answer. *)
Definition fetched (r1 r2 : Response Preschool.t) : list Preschool.t :=
  JS.or_empty (data r1) ++ JS.or_empty (data r2).

(** A store query fails when it rejects or answers with an error. *)
Definition query_failed {Row : Type} (settled : Settled (Response Row)) : bool :=
  match settled with
  | Fulfilled r => match error r with Some _ => true | None => false end
  | Rejected _ => true
  end.

Definition fetch_failed (w : World) : bool :=
  query_failed (from_Forskolor (supabase w) preschoolsWithoutData_query)
  || query_failed (from_Forskolor (supabase w) preschoolsWithOldData_query).

(** [advance n m s]: the state [s] after [n] more candidates have been
    processed, [m] of them in error. *)
Definition advance (n m : nat) (s : EnrichmentProgress.t) : EnrichmentProgress.t :=
  {| EnrichmentProgress.total := EnrichmentProgress.total s;
     EnrichmentProgress.processed := EnrichmentProgress.processed s + n;
     EnrichmentProgress.errors := EnrichmentProgress.errors s + m;
     EnrichmentProgress.isRunning := EnrichmentProgress.isRunning s |}.

(** Events that neither dispatch nor wait: console output and state
    updates. *)
Definition silent (ev : Event) : Prop :=
  match ev with
  | Console_log _ | Console_error _ | SetProgress _ => True
  | _ => False
  end.

(** What can be observed while [n] calls settle one after the other from
    the state [s]: the total and the running flag are those of [s], at most
    [n] more candidates are processed, and the error count runs at most one
    ahead of the processed count. *)
Definition within (s : EnrichmentProgress.t) (n : nat) (p : EnrichmentProgress.t) : Prop :=
  EnrichmentProgress.total p = EnrichmentProgress.total s
  /\ EnrichmentProgress.isRunning p = EnrichmentProgress.isRunning s
  /\ EnrichmentProgress.processed s <= EnrichmentProgress.processed p
  /\ EnrichmentProgress.processed p <= EnrichmentProgress.processed s + n
  /\ EnrichmentProgress.errors p + EnrichmentProgress.processed s
     <= EnrichmentProgress.errors s + EnrichmentProgress.processed p + 1.

(** The rate-limiting schedule read off a trace: the invocations issued
    before each [Promise.allSettled] resolves form one dispatched batch,
    and every timer is a pause. *)
Inductive Step : Type :=
| Dispatch (batch : list InvokeBody)
| Pause (ms : nat).

Fixpoint schedule_from (pending : list InvokeBody) (t : Trace) : list Step :=
  match t with
  | [] => []
  | Invoke _ b :: t' => schedule_from (pending ++ [b]) t'
  | AllSettled _ :: t' => Dispatch pending :: schedule_from [] t'
  | SetTimeout ms :: t' => Pause ms :: schedule_from pending t'
  | _ :: t' => schedule_from pending t'
  end.

Definition schedule (t : Trace) : list Step := schedule_from [] t.

Fixpoint batch_sizes (s : list Step) : list nat :=
  match s with
  | [] => []
  | Dispatch b :: s' => length b :: batch_sizes s'
  | Pause _ :: s' => batch_sizes s'
  end.

Fixpoint pauses (s : list Step) : list nat :=
  match s with
  | [] => []
  | Dispatch _ :: s' => pauses s'
  | Pause ms :: s' => ms :: pauses s'
  end.

(** The schedule as the specification words it: consecutive batches of a
    fixed size, in list order, with a pause between two consecutive
    batches and none after the last. *)
Equations? consecutive_batches {A : Type} (size : nat) (l : list A) : list (list A)
  by wf (length l) lt :=
  consecutive_batches 0 _ := [];
  consecutive_batches (S n) [] := [];
  consecutive_batches (S n) (x :: xs) :=
    (x :: firstn n xs) :: consecutive_batches (S n) (skipn n xs).
Proof. simpl. pose proof (length_skipn n xs). lia. Qed.

Fixpoint paused_between (ms : nat) (bs : list (list InvokeBody)) : list Step :=
  match bs with
  | [] => []
  | [b] => [Dispatch b]
  | b :: bs' => Dispatch b :: Pause ms :: paused_between ms bs'
  end.

(** The percentage as the specification words it: [100 * enriched / total]
    rounded to the nearest integer (a tie going up, as [Math.round] does),
    in exact arithmetic; [0] when [total] is [0]. *)
Definition rounded_percentage (enriched total : nat) : Z :=
  if total =? 0 then 0%Z
  else ((200 * Z.of_nat enriched + Z.of_nat total) / (2 * Z.of_nat total))%Z.

(** The percentage as the code computes it:
    [Math.round(enriched / total * 100)] on doubles. *)
Definition double_percentage (enriched total : nat) : Z :=
  JS.Math_round
    (PrimFloat.mul (PrimFloat.div (JS.number enriched) (JS.number total)) 100%float).

(** Whether the computed percentage is the rounded quotient, or one below
    it when the quotient lies exactly half-way between two integers. *)
Definition rounded_or_tie_below (enriched total : nat) : bool :=
  let p := double_percentage enriched total in
  let r := rounded_percentage enriched total in
  ((p =? r)
   || ((p =? r - 1)
       && (200 * Z.of_nat enriched + Z.of_nat total =? 2 * Z.of_nat total * r)))%Z.

(* ===================================================================== *)
(** ** The record store *)
(* ===================================================================== *)

Module Store.

(** Modelled from the spec: the record store behind the Supabase client,
    which is not part of the source.  Section 6 gives its query interface
    as filtering by non-null fields, set-membership and set-exclusion
    filtering and result-count limiting, over the preschool collection
    and a collection of enriched records keyed by the same identifiers
    and carrying the stored enrichment timestamp. *)
Record Database : Type := {
  Forskolor : list Preschool.t;
  preschool_google_data : list GoogleData
}.

(** Modelled from the spec: the columns of a table, as the filters of the
    query interface read them. *)
Class Columns (Row : Type) : Type := {
  is_null : string -> Row -> bool;
  text : string -> Row -> option string
}.

Definition is_none {A : Type} (x : option A) : bool :=
  match x with
  | Some _ => false
  | None => true
  end.

#[global] Instance Preschool_columns : Columns Preschool.t := {
  is_null column r :=
    if String.eqb column "Namn" then is_none (Preschool.Namn r)
    else if String.eqb column "Adress" then is_none (Preschool.Adress r)
    else if String.eqb column "Latitud" then is_none (Preschool.Latitud r)
    else if String.eqb column "Longitud" then is_none (Preschool.Longitud r)
    else false;
  text column r :=
    if String.eqb column "id" then Some (Preschool.id r)
    else if String.eqb column "Namn" then Preschool.Namn r
    else if String.eqb column "Adress" then Preschool.Adress r
    else None
}.

#[global] Instance GoogleData_columns : Columns GoogleData := {
  is_null column r := false;
  text column r :=
    if String.eqb column "preschool_id" then Some (preschool_id r) else None
}.

Definition member (values : list string) (v : option string) : bool :=
  match v with
  | Some s => existsb (String.eqb s) values
  | None => false
  end.

(** Modelled from the spec: whether a row passes one filter (non-null
    test, set exclusion, set membership). *)
Definition passes {Row : Type} `{Columns Row} (f : Filter) (r : Row) : bool :=
  match f with
  | not_is_null column => negb (is_null column r)
  | not_in column values => negb (member values (text column r))
  | in_ column values => member values (text column r)
  end.

Definition limited {Row : Type} (limit : option nat) (rows : list Row) : list Row :=
  match limit with
  | Some n => firstn n rows
  | None => rows
  end.

(** Modelled from the spec: the rows a query selects, those passing every
    filter, in table order, cut at the limit. *)
Definition rows_of {Row : Type} `{Columns Row} (q : Query) (table : list Row) : list Row :=
  limited (limit q) (filter (fun r => forallb (fun f => passes f r) (filters q)) table).

(** Modelled from the spec: a client over a store whose queries all
    succeed. *)
Definition client (db : Database)
           (invoke : nat -> string -> InvokeBody -> Settled InvokeResponse) : Client :=
  {| from_Forskolor q :=
       Fulfilled {| data := Some (rows_of q (Forskolor db)); error := None |};
     from_preschool_google_data q :=
       Fulfilled {| data := Some (rows_of q (preschool_google_data db)); error := None |};
     functions_invoke := invoke |}.

(** A preschool with both coordinates. *)
Definition located (r : Preschool.t) : bool :=
  negb (is_none (Preschool.Latitud r)) && negb (is_none (Preschool.Longitud r)).

(** Modelled from the spec: a preschool that already has enrichment data,
    a record of the enriched collection carrying its identifier. *)
Definition enriched (db : Database) (r : Preschool.t) : bool :=
  existsb (fun g => String.eqb (preschool_id g) (Preschool.id r))
          (preschool_google_data db).

Definition seven_days : Z := 7 * 86400000.

(** Modelled from the spec: a preschool whose stored enrichment timestamp
    is more than seven days old at time [now]. *)
Definition stale (db : Database) (now : Z) (r : Preschool.t) : bool :=
  existsb (fun g => String.eqb (preschool_id g) (Preschool.id r)
                    && (updated_at g <? now - seven_days)%Z)
          (preschool_google_data db).

End Store.

(* ===================================================================== *)
(** ** Concrete inputs *)
(* ===================================================================== *)

Module Inputs.

(** A located preschool whose identifier is the single character with
    code [48 + n]. *)
Definition preschool (n : nat) : Preschool.t :=
  {| Preschool.id := String (Ascii.ascii_of_nat (48 + n)) EmptyString;
     Preschool.Namn := Some "Solrosen";
     Preschool.Adress := Some "Storgatan 1";
     Preschool.Latitud := Some 59.5%float;
     Preschool.Longitud := Some 18%float |}.

Definition preschools (n : nat) : list Preschool.t := map preschool (seq 0 n).

(** The enrichment record of [preschool n], stored at time [at_]. *)
Definition google_data (at_ : Z) (n : nat) : GoogleData :=
  {| preschool_id := Preschool.id (preschool n); updated_at := at_ |}.

Definition succeeds : nat -> string -> InvokeBody -> Settled InvokeResponse :=
  fun _ _ _ => Fulfilled {| enrichError := None |}.

Definition reports_error : nat -> string -> InvokeBody -> Settled InvokeResponse :=
  fun _ _ _ => Fulfilled {| enrichError := Some "quota exceeded" |}.

(** Call 1 reports an error, call 4 rejects, the others succeed. *)
Definition mixed : nat -> string -> InvokeBody -> Settled InvokeResponse :=
  fun k _ _ =>
    if k =? 1 then Fulfilled {| enrichError := Some "quota exceeded" |}
    else if k =? 4 then Rejected "network"
    else Fulfilled {| enrichError := None |}.

(** One located preschool, not yet enriched; its invocation reports an
    error. *)
Definition one_reported_error : World :=
  {| supabase :=
       Store.client {| Store.Forskolor := preschools 1;
                       Store.preschool_google_data := [] |} reports_error;
     now := 0%Z;
     settle_order := fun _ => [] |}.

(** Seven located preschools; two of the seven invocations fail; the
    calls of a batch settle out of order. *)
Definition seven : World :=
  {| supabase :=
       Store.client {| Store.Forskolor := preschools 7;
                       Store.preschool_google_data := [] |} mixed;
     now := 0%Z;
     settle_order := fun _ => [0; 1; 1] |}.

(** Seven located preschools, every invocation succeeding. *)
Definition seven_fine : World :=
  {| supabase :=
       Store.client {| Store.Forskolor := preschools 7;
                       Store.preschool_google_data := [] |} succeeds;
     now := 0%Z;
     settle_order := fun _ => [] |}.

(** The first candidate query answers with an error. *)
Definition fetch_error : World :=
  {| supabase :=
       {| from_Forskolor q :=
            match filters q with
            | [_; _; not_in _ _] =>
                Fulfilled {| data := None; error := Some "connection refused" |}
            | _ => Fulfilled {| data := Some (preschools 2); error := None |}
            end;
          from_preschool_google_data q :=
            Fulfilled {| data := Some []; error := None |};
          functions_invoke := succeeds |};
     now := 0%Z;
     settle_order := fun _ => [] |}.

(** A store whose one located preschool was enriched eight days before
    [now]. *)
Definition eight_days : Z := 8 * 86400000.

Definition enriched_long_ago : Store.Database :=
  {| Store.Forskolor := preschools 1;
     Store.preschool_google_data := [google_data 0%Z 0] |}.

(** Forty located preschools, twenty-three of them enriched. *)
Definition twenty_three_of_forty : World :=
  {| supabase :=
       Store.client {| Store.Forskolor := preschools 40;
                       Store.preschool_google_data := map (google_data 0%Z) (seq 0 23) |}
                    succeeds;
     now := 0%Z;
     settle_order := fun _ => [] |}.

(** The count of located preschools answers with two rows; the count of
    enriched records answers with an error. *)
Definition enriched_count_error : World :=
  {| supabase :=
       {| from_Forskolor q := Fulfilled {| data := Some (preschools 2); error := None |};
          from_preschool_google_data q :=
            Fulfilled {| data := None; error := Some "permission denied" |};
          functions_invoke := succeeds |};
     now := 0%Z;
     settle_order := fun _ => [] |}.

(** The count of located preschools rejects. *)
Definition total_count_rejects : World :=
  {| supabase :=
       {| from_Forskolor q := Rejected "network";
          from_preschool_google_data q :=
            Fulfilled {| data := Some [google_data 0%Z 0]; error := None |};
          functions_invoke := succeeds |};
     now := 0%Z;
     settle_order := fun _ => [] |}.

(** A state left by an earlier run over five candidates. *)
Definition after_five : EnrichmentProgress.t :=
  {| EnrichmentProgress.total := 5;
     EnrichmentProgress.processed := 5;
     EnrichmentProgress.errors := 1;
     EnrichmentProgress.isRunning := false |}.

(** A state in the middle of a run. *)
Definition running : EnrichmentProgress.t :=
  {| EnrichmentProgress.total := 5;
     EnrichmentProgress.processed := 2;
     EnrichmentProgress.errors := 1;
     EnrichmentProgress.isRunning := true |}.

End Inputs.

(* ===================================================================== *)
(** ** Further readings of a trace *)
(* ===================================================================== *)

(** The messages written with [console.error], in order. *)
Fixpoint console_errors (t : Trace) : list Message :=
  match t with
  | [] => []
  | Console_error m :: t' => m :: console_errors t'
  | _ :: t' => console_errors t'
  end.

(** The messages written with [console.log], in order. *)
Fixpoint console_logs (t : Trace) : list Message :=
  match t with
  | [] => []
  | Console_log m :: t' => m :: console_logs t'
  | _ :: t' => console_logs t'
  end.

(** The batches of a schedule, in order. *)
Fixpoint dispatched (s : list Step) : list (list InvokeBody) :=
  match s with
  | [] => []
  | Dispatch b :: s' => b :: dispatched s'
  | Pause _ :: s' => dispatched s'
  end.

(** What a part of a run writes besides its state updates: no
    [console.log], no store query, and [n] [console.error] messages. *)
Definition writes (n : nat) (t : Trace) : Prop :=
  console_logs t = [] /\ queries t = [] /\ length (console_errors t) = n.

(** A store without preschools. *)
Definition nothing_to_enrich : World :=
  {| supabase :=
       Store.client {| Store.Forskolor := [];
                       Store.preschool_google_data := [] |} Inputs.succeeds;
     now := 0%Z;
     settle_order := fun _ => [] |}.

(* ===================================================================== *)
(** ** Lemmas on the effects and on the batch loop *)
(* ===================================================================== *)

Lemma bind_run {A B : Type} (c : M A) (k : A -> M B) s t1 s1 a :
  c s = (t1, s1, Normal a) ->
  bind c k s = (t1 ++ trace_of (k a s1), state_of (k a s1), completion_of (k a s1)).
Proof.
  intros Hc. unfold bind, trace_of, state_of, completion_of. rewrite Hc.
  destruct (k a s1) as [[t2 s2] r]. reflexivity.
Qed.

Lemma advance_0 s : advance 0 0 s = s.
Proof. destruct s. unfold advance. simpl. f_equal; lia. Qed.

Lemma advance_advance n1 m1 n2 m2 s :
  advance n2 m2 (advance n1 m1 s) = advance (n1 + n2) (m1 + m2) s.
Proof. unfold advance. simpl. f_equal; lia. Qed.

Lemma enrich_settled_run p r s :
  exists t,
    enrich_settled p r s = (t, advance 1 (Nat.b2n (failed r)) s, Normal tt)
    /\ Forall silent t
    /\ (observations t = [advance 1 (Nat.b2n (failed r)) s]
        \/ (failed r = true /\ observations t = [count_error s; advance 1 1 s])).
Proof.
  destruct r as [[[e|]]|e]; simpl; unfold enrich_settled, try_catch, bind, await, emit, setProgress, ret; simpl.
  - eexists. split; [reflexivity|]. split.
    + repeat constructor.
    + right. split; [reflexivity|]. reflexivity.
  - eexists. split; [|split].
    + unfold advance, count_processed. simpl. repeat f_equal; lia.
    + repeat constructor.
    + left. simpl. unfold advance, count_processed. simpl. repeat f_equal; lia.
  - eexists. split; [reflexivity|]. split.
    + repeat constructor.
    + left. reflexivity.
Qed.

Lemma arrange_permutation {A : Type} (picks : list nat) (l : list A) :
  Permutation (arrange picks l) l.
Proof.
  revert picks. induction l as [|x xs IH]; intros picks; simpl.
  - constructor.
  - symmetry. apply Permutation_cons_app.
    rewrite firstn_skipn. symmetry. apply IH.
Qed.

Lemma arrange_complete {A : Type} (l l' : list A) :
  Permutation l l' -> exists picks, arrange picks l = l'.
Proof.
  revert l'. induction l as [|x xs IH]; intros l' Hperm.
  - apply Permutation_nil in Hperm. subst l'. exists []. reflexivity.
  - assert (Hin : In x l') by (apply (Permutation_in x Hperm); left; reflexivity).
    apply in_split in Hin. destruct Hin as (before & after & ->).
    apply Permutation_cons_app_inv in Hperm.
    destruct (IH _ Hperm) as (picks & Hpicks).
    exists (length before :: picks). cbn [arrange hd tl]. rewrite Hpicks.
    rewrite firstn_app, firstn_all, Nat.sub_diag, skipn_app, skipn_all, Nat.sub_diag.
    cbn [firstn skipn app]. rewrite app_nil_r. reflexivity.
Qed.

Lemma filter_length_arrange {A : Type} (f : A -> bool) (picks : list nat) (l : list A) :
  length (filter f (arrange picks l)) = length (filter f l).
Proof.
  revert picks. induction l as [|x xs IH]; intros picks; simpl; [reflexivity|].
  rewrite filter_app, length_app. simpl.
  specialize (IH (tl picks)).
  rewrite <- (firstn_skipn (hd 0 picks) (arrange (tl picks) xs)) in IH.
  rewrite filter_app, length_app in IH.
  destruct (f x); simpl; lia.
Qed.

Lemma length_arrange {A : Type} (picks : list nat) (l : list A) :
  length (arrange picks l) = length l.
Proof. apply Permutation_length, arrange_permutation. Qed.

Lemma length_indexed {A : Type} (i : nat) (l : list A) : length (indexed i l) = length l.
Proof. revert i. induction l; intros; simpl; auto. Qed.

Lemma indexed_app {A : Type} (i : nat) (l1 l2 : list A) :
  indexed i (l1 ++ l2) = indexed i l1 ++ indexed (i + length l1) l2.
Proof.
  revert i. induction l1 as [|x xs IH]; intros i; simpl.
  - rewrite Nat.add_0_r. reflexivity.
  - rewrite IH, Nat.add_succ_r. reflexivity.
Qed.

Lemma within_advance s n m k p :
  m <= n -> within (advance n m s) k p -> within s (n + k) p.
Proof. unfold within, advance. simpl. intros Hm (Ht & Hr & H1 & H2 & H3). repeat split; auto; lia. Qed.

Lemma b2n_le_1 b : Nat.b2n b <= 1.
Proof. destruct b; simpl; lia. Qed.

Lemma observations_app t1 t2 : observations (t1 ++ t2) = observations t1 ++ observations t2.
Proof.
  induction t1 as [|ev t1 IH]; simpl; [reflexivity|].
  destruct ev; simpl; rewrite IH; reflexivity.
Qed.

Lemma invocations_app t1 t2 : invocations (t1 ++ t2) = invocations t1 ++ invocations t2.
Proof.
  induction t1 as [|ev t1 IH]; simpl; [reflexivity|].
  destruct ev; simpl; rewrite IH; reflexivity.
Qed.

Lemma within_weaken s n k p : n <= k -> within s n p -> within s k p.
Proof. unfold within. intros Hn (Ht & Hr & H1 & H2 & H3). repeat split; auto; lia. Qed.

Lemma within_advanced s b : within s 1 (advance 1 (Nat.b2n b) s).
Proof. unfold within, advance. destruct b; simpl; repeat split; lia. Qed.

Lemma within_count_error s : within s 1 (count_error s).
Proof. unfold within, count_error. simpl. repeat split; lia. Qed.

Lemma settle_all_run w (calls : list (nat * Preschool.t)) s :
  exists t,
    for_each
      (fun '(k, preschool) =>
         settle
           (enrich_settled preschool
              (functions_invoke (supabase w) k enricher (invoke_body preschool))))
      calls s
    = (t, advance (length calls) (length (filter (invocation_failed w) calls)) s, Normal tt)
    /\ Forall silent t
    /\ Forall (within s (length calls)) (observations t).
Proof.
  revert s. induction calls as [|[k p] calls IH]; intros s.
  - exists []. simpl. unfold ret. rewrite advance_0. repeat split; constructor.
  - pose proof (enrich_settled_run p (functions_invoke (supabase w) k enricher (invoke_body p)) s)
      as (t1 & E1 & S1 & O1).
    cbn [filter]. unfold invocation_failed at 1. cbn [fst snd].
    set (b := failed (functions_invoke (supabase w) k enricher (invoke_body p))) in *.
    destruct (IH (advance 1 (Nat.b2n b) s)) as (t2 & E2 & S2 & O2).
    assert (E1' : settle (enrich_settled p (functions_invoke (supabase w) k enricher
                                              (invoke_body p))) s
                  = (t1, advance 1 (Nat.b2n b) s, Normal tt))
      by (unfold settle, try_catch; rewrite E1; reflexivity).
    exists (t1 ++ t2). split; [|split].
    + cbn [for_each]. rewrite (bind_run _ _ _ _ _ _ E1'), E2.
      unfold trace_of, state_of, completion_of. cbn [fst snd].
      rewrite advance_advance. cbn [length].
      destruct b; reflexivity.
    + apply Forall_app; auto.
    + rewrite observations_app. apply Forall_app. split.
      * destruct O1 as [O1 | [Hb O1]]; rewrite O1.
        -- constructor; [|constructor].
           apply within_weaken with (n := 1); [cbn [length]; lia | apply within_advanced].
        -- constructor; [|constructor; [|constructor]].
           ++ apply within_weaken with (n := 1); [cbn [length]; lia | apply within_count_error].
           ++ apply within_weaken with (n := 1); [cbn [length]; lia |].
              apply (within_advanced s true).
      * eapply Forall_impl; [|exact O2].
        intros q Hq. apply (within_advance s 1 (Nat.b2n b) (length calls) q); [apply b2n_le_1 | exact Hq].
Qed.

Lemma dispatch_all_run (batch : list Preschool.t) s :
  for_each (fun preschool => emit (Invoke enricher (invoke_body preschool))) batch s
  = (map (fun preschool => Invoke enricher (invoke_body preschool)) batch, s, Normal tt).
Proof.
  revert s. induction batch as [|p batch IH]; intros s; [reflexivity|].
  cbn [for_each]. rewrite (bind_run _ _ s [Invoke enricher (invoke_body p)] s tt eq_refl).
  rewrite IH. reflexivity.
Qed.

Lemma process_batch_run w i batch s :
  exists t,
    process_batch w i batch s
    = (map (fun preschool => Invoke enricher (invoke_body preschool)) batch
         ++ t ++ [AllSettled (length batch)],
       advance (length batch) (failures_from w i batch) s,
       Normal tt)
    /\ Forall silent t
    /\ Forall (within s (length batch)) (observations t).
Proof.
  destruct (settle_all_run w (arrange (settle_order w i) (indexed i batch)) s)
    as (t & E & S & O).
  rewrite length_arrange, length_indexed, filter_length_arrange in E.
  rewrite length_arrange, length_indexed in O.
  exists t. split; [|split]; auto.
  unfold process_batch.
  rewrite (bind_run _ _ _ _ _ _ (dispatch_all_run batch s)).
  rewrite (bind_run _ _ _ _ _ _ E).
  reflexivity.
Qed.

Lemma batches_step w l i :
  i < length l ->
  batches w l i
  = (process_batch w i (JS.slice l i (i + batchSize)) ;;
     (if i + batchSize <? length l then emit (SetTimeout 2000) else ret tt) ;;
     batches w l (i + batchSize)).
Proof.
  intros Hi. rewrite batches_equation_1.
  destruct (lt_dec i (length l)); [reflexivity | lia].
Qed.

Lemma batches_done w l i : length l <= i -> batches w l i = ret tt.
Proof.
  intros Hi. rewrite batches_equation_1.
  destruct (lt_dec i (length l)); [lia | reflexivity].
Qed.

Lemma schedule_from_silent pending t rest :
  Forall silent t -> schedule_from pending (t ++ rest) = schedule_from pending rest.
Proof.
  induction 1 as [|ev t Hev _ IH]; simpl; [reflexivity|].
  destruct ev; simpl in Hev; try contradiction; exact IH.
Qed.

Lemma invocations_silent t : Forall silent t -> invocations t = [].
Proof.
  induction 1 as [|ev t Hev _ IH]; simpl; [reflexivity|].
  destruct ev; simpl in Hev; try contradiction; exact IH.
Qed.

Lemma schedule_from_invokes pending (batch : list Preschool.t) rest :
  schedule_from pending
    (map (fun preschool => Invoke enricher (invoke_body preschool)) batch ++ rest)
  = schedule_from (pending ++ map invoke_body batch) rest.
Proof.
  revert pending. induction batch as [|p batch IH]; intros pending; simpl.
  - rewrite app_nil_r. reflexivity.
  - rewrite IH, <- app_assoc. reflexivity.
Qed.

Lemma invocations_invokes (batch : list Preschool.t) :
  invocations (map (fun preschool => Invoke enricher (invoke_body preschool)) batch)
  = map invoke_body batch.
Proof. induction batch as [|p batch IH]; simpl; [|rewrite IH]; reflexivity. Qed.

Lemma observations_invokes (batch : list Preschool.t) :
  observations (map (fun preschool => Invoke enricher (invoke_body preschool)) batch) = [].
Proof. induction batch as [|p batch IH]; simpl; auto. Qed.

Lemma consecutive_batches_nil {A : Type} (size : nat) : @consecutive_batches A size [] = [].
Proof. destruct size; simp consecutive_batches; reflexivity. Qed.

Lemma consecutive_batches_step {A : Type} (n : nat) (l : list A) :
  l <> [] ->
  consecutive_batches (S n) l = firstn (S n) l :: consecutive_batches (S n) (skipn (S n) l).
Proof.
  destruct l as [|x xs]; [congruence|]. intros _.
  simp consecutive_batches. reflexivity.
Qed.

Lemma slice_skipn {A : Type} (l : list A) (i n : nat) :
  JS.slice l i (i + n) = firstn n (skipn i l).
Proof. unfold JS.slice. replace (i + n - i) with n by lia. reflexivity. Qed.

Lemma failures_from_split w i n (l : list Preschool.t) :
  failures_from w i l
  = failures_from w i (firstn n l) + failures_from w (i + n) (skipn n l).
Proof.
  unfold failures_from.
  rewrite <- (firstn_skipn n l) at 1.
  rewrite indexed_app, filter_app, length_app.
  destruct (Nat.le_gt_cases n (length l)) as [Hn | Hn].
  - rewrite length_firstn, Nat.min_l by exact Hn. reflexivity.
  - rewrite skipn_all2 by lia. reflexivity.
Qed.

Lemma timer_run (more : bool) s :
  (if more then emit (SetTimeout 2000) else ret tt) s
  = ((if more then [SetTimeout 2000] else []), s, Normal tt).
Proof. destruct more; reflexivity. Qed.

Lemma batches_run w l :
  forall n i s,
    length l - i = n ->
    exists t,
      batches w l i s
      = (t, advance (length l - i) (failures_from w i (skipn i l)) s, Normal tt)
      /\ invocations t = map invoke_body (skipn i l)
      /\ schedule t
         = paused_between 2000 (consecutive_batches batchSize (map invoke_body (skipn i l)))
      /\ Forall (within s (length l - i)) (observations t).
Proof.
  induction n as [n IH] using lt_wf_ind. intros i s Hn.
  destruct (Nat.le_gt_cases (length l) i) as [Hdone | Hmore].
  - exists []. rewrite (batches_done w l i Hdone), (skipn_all2 l Hdone).
    replace (length l - i) with 0 by lia.
    unfold failures_from. simpl. rewrite advance_0, consecutive_batches_nil.
    repeat split; constructor.
  - set (batch := firstn batchSize (skipn i l)).
    assert (Hlen : length batch = Nat.min batchSize (length l - i)).
    { unfold batch. rewrite length_firstn, length_skipn. reflexivity. }
    pose proof (process_batch_run w i batch s) as (t1 & E1 & S1 & O1).
    set (s1 := advance (length batch) (failures_from w i batch) s) in *.
    destruct (IH (length l - (i + batchSize))) with (i := i + batchSize) (s := s1)
      as (t2 & E2 & I2 & C2 & O2); [unfold batchSize; lia | reflexivity |].
    exists ((map (fun preschool => Invoke enricher (invoke_body preschool)) batch
               ++ t1 ++ [AllSettled (length batch)])
            ++ (if i + batchSize <? length l then [SetTimeout 2000] else []) ++ t2).
    split; [|split; [|split]].
    + rewrite (batches_step w l i Hmore), slice_skipn. fold batch.
      rewrite (bind_run _ _ _ _ _ _ E1).
      rewrite (bind_run _ _ _ _ _ _ (timer_run _ s1)).
      rewrite E2. unfold trace_of, state_of, completion_of. cbn [fst snd].
      unfold s1. rewrite advance_advance.
      rewrite (failures_from_split w i batchSize (skipn i l)), skipn_skipn.
      fold batch. rewrite (Nat.add_comm batchSize i).
      replace (length batch + (length l - (i + batchSize))) with (length l - i)
        by (rewrite Hlen; unfold batchSize; lia).
      reflexivity.
    + rewrite !invocations_app, invocations_invokes, (invocations_silent t1 S1), I2.
      assert (Hskip : batch ++ skipn (i + batchSize) l = skipn i l).
      { unfold batch.
        rewrite (Nat.add_comm i batchSize), <- (skipn_skipn batchSize i l).
        apply firstn_skipn. }
      rewrite <- Hskip, map_app.
      destruct (i + batchSize <? length l); cbn [invocations app];
        rewrite app_nil_r; reflexivity.
    + unfold schedule. rewrite <- !app_assoc, schedule_from_invokes.
      rewrite (schedule_from_silent _ t1 _ S1). cbn [app schedule_from].
      assert (Hne : map invoke_body (skipn i l) <> []).
      { intros H. apply (f_equal (@length _)) in H.
        rewrite length_map, length_skipn in H. simpl in H. lia. }
      unfold batchSize at 2. rewrite (consecutive_batches_step _ _ Hne).
      fold batchSize. rewrite firstn_map, skipn_map, skipn_skipn.
      fold batch. rewrite (Nat.add_comm batchSize i).
      change (schedule_from [] ?t) with (schedule t).
      destruct (Nat.ltb_spec (i + batchSize) (length l)) as [Hlt | Hge].
      * assert (Hne2 : map invoke_body (skipn (i + batchSize) l) <> []).
        { intros H. apply (f_equal (@length _)) in H.
          rewrite length_map, length_skipn in H. simpl in H. lia. }
        cbn [app]. unfold schedule at 1. cbn [schedule_from].
        change (schedule_from [] t2) with (schedule t2). rewrite C2.
        pose proof (consecutive_batches_step 2 _ Hne2) as Hstep.
        change 3 with batchSize in Hstep. rewrite Hstep.
        reflexivity.
      * cbn [app]. rewrite C2, (skipn_all2 l Hge). cbn [map].
        rewrite consecutive_batches_nil. reflexivity.
    + rewrite !observations_app, observations_invokes. cbn [app].
      replace (observations [AllSettled (length batch)]) with (@nil EnrichmentProgress.t)
        by reflexivity.
      rewrite app_nil_r. apply Forall_app. split; [|apply Forall_app; split].
      * eapply Forall_impl; [|exact O1].
        intros q. apply within_weaken. rewrite Hlen. lia.
      * destruct (i + batchSize <? length l); constructor.
      * eapply Forall_impl; [|exact O2].
        intros q Hq.
        replace (length l - i) with (length batch + (length l - (i + batchSize)))
          by (rewrite Hlen; unfold batchSize; lia).
        apply (within_advance s _ (failures_from w i batch)); [|exact Hq].
        unfold failures_from.
        pose proof (filter_length_le (invocation_failed w) (indexed i batch)) as Hle.
        rewrite length_indexed in Hle. exact Hle.
Qed.

Lemma run_fetched w progress st r1 r2 :
  EnrichmentProgress.isRunning progress = false ->
  from_Forskolor (supabase w) preschoolsWithoutData_query = Fulfilled r1 ->
  from_Forskolor (supabase w) preschoolsWithOldData_query = Fulfilled r2 ->
  error r1 = None ->
  error r2 = None ->
  exists t,
    enrichMissingData w progress st
    = ([Console_log msg_starting;
        SetProgress (start_run st);
        Select "Forskolor" preschoolsWithoutData_query;
        Select "Forskolor" preschoolsWithOldData_query;
        Console_log (msg_found (length (fetched r1 r2)));
        SetProgress (set_total (length (fetched r1 r2)) (start_run st))]
         ++ t
         ++ [Console_log (msg_completed
                            (EnrichmentProgress.processed progress + length (fetched r1 r2))
                            (EnrichmentProgress.errors progress));
             SetProgress
               (stop_run (advance (length (fetched r1 r2)) (failures w (fetched r1 r2))
                            (set_total (length (fetched r1 r2)) (start_run st))))],
       stop_run (advance (length (fetched r1 r2)) (failures w (fetched r1 r2))
                   (set_total (length (fetched r1 r2)) (start_run st))),
       Normal tt)
    /\ invocations t = map invoke_body (fetched r1 r2)
    /\ schedule t
       = paused_between 2000 (consecutive_batches batchSize (map invoke_body (fetched r1 r2)))
    /\ Forall (within (set_total (length (fetched r1 r2)) (start_run st))
                      (length (fetched r1 r2)))
              (observations t).
Proof.
  intros Hrun Q1 Q2 E1 E2.
  destruct (batches_run w (fetched r1 r2) _ 0
              (set_total (length (fetched r1 r2)) (start_run st)) eq_refl)
    as (t & Ht & Hi & Hs & Ho).
  rewrite Nat.sub_0_r in Ht, Ho. cbn [skipn] in Ht, Hi, Hs.
  fold (failures w (fetched r1 r2)) in Ht.
  exists t. repeat split; auto.
  unfold enrichMissingData. rewrite Hrun.
  unfold try_finally, try_catch, select_Forskolor, bind, emit, await, setProgress.
  rewrite Q1, Q2, E1, E2. cbn [JS.or_else].
  fold (fetched r1 r2). rewrite Ht.
  cbn [app]. rewrite <- !app_assoc. reflexivity.
Qed.

Lemma run_aborted w progress st :
  EnrichmentProgress.isRunning progress = false ->
  fetch_failed w = true ->
  exists t,
    enrichMissingData w progress st
    = (Console_log msg_starting :: SetProgress (start_run st)
         :: t ++ [SetProgress (stop_run (start_run st))],
       stop_run (start_run st),
       Normal tt)
    /\ invocations t = []
    /\ observations t = [].
Proof.
  intros Hrun Hfail. unfold fetch_failed, query_failed in Hfail.
  unfold enrichMissingData. rewrite Hrun.
  unfold try_finally, try_catch, select_Forskolor, bind, emit, await, setProgress.
  destruct (from_Forskolor (supabase w) preschoolsWithoutData_query) as [r1 | e1].
  - destruct (from_Forskolor (supabase w) preschoolsWithOldData_query) as [r2 | e2].
    + destruct (error r1) as [e1|]; [|destruct (error r2) as [e2|]; [|discriminate]].
      * exists [Select "Forskolor" preschoolsWithoutData_query;
                Select "Forskolor" preschoolsWithOldData_query;
                Console_error (msg_fetch_error e1)].
        repeat split.
      * exists [Select "Forskolor" preschoolsWithoutData_query;
                Select "Forskolor" preschoolsWithOldData_query;
                Console_error (msg_fetch_error e2)].
        repeat split.
    + exists [Select "Forskolor" preschoolsWithoutData_query;
              Select "Forskolor" preschoolsWithOldData_query;
              Console_error (msg_process_error e2)].
      repeat split.
  - exists [Select "Forskolor" preschoolsWithoutData_query;
            Console_error (msg_process_error e1)].
    repeat split.
Qed.

(* ===================================================================== *)
(** ** The properties of the hook *)
(* ===================================================================== *)

Lemma fetch_succeeded w :
  fetch_failed w = false ->
  exists r1 r2,
    from_Forskolor (supabase w) preschoolsWithoutData_query = Fulfilled r1
    /\ from_Forskolor (supabase w) preschoolsWithOldData_query = Fulfilled r2
    /\ error r1 = None /\ error r2 = None.
Proof.
  unfold fetch_failed, query_failed. intros H.
  apply orb_false_iff in H. destruct H as [H1 H2].
  destruct (from_Forskolor (supabase w) preschoolsWithoutData_query) as [r1|]; [|discriminate].
  destruct (from_Forskolor (supabase w) preschoolsWithOldData_query) as [r2|]; [|discriminate].
  exists r1, r2.
  destruct (error r1); [discriminate|]. destruct (error r2); [discriminate|].
  repeat split.
Qed.

Lemma failures_le w l : failures w l <= length l.
Proof.
  unfold failures, failures_from.
  pose proof (filter_length_le (invocation_failed w) (indexed 0 l)) as H.
  rewrite length_indexed in H. exact H.
Qed.

(** Every state observed during a run has [processed <= total], and its
    error count is at most one ahead of its processed count. *)
Lemma observed_progress_bounds w progress st :
  Forall (fun p => EnrichmentProgress.processed p <= EnrichmentProgress.total p
                   /\ EnrichmentProgress.errors p <= EnrichmentProgress.processed p + 1)
         (observations (trace_of (enrichMissingData w progress st))).
Proof.
  destruct (EnrichmentProgress.isRunning progress) eqn:Hrun.
  - unfold enrichMissingData. rewrite Hrun. constructor.
  - destruct (fetch_failed w) eqn:Hfetch.
    + destruct (run_aborted w progress st Hrun Hfetch) as (t & E & _ & O).
      rewrite E. unfold trace_of. cbn [fst observations].
      rewrite observations_app, O. cbn [app observations].
      constructor; [cbn; lia|]. constructor; [cbn; lia|]. constructor.
    + destruct (fetch_succeeded w Hfetch) as (r1 & r2 & Q1 & Q2 & E1 & E2).
      destruct (run_fetched w progress st r1 r2 Hrun Q1 Q2 E1 E2) as (t & E & _ & _ & O).
      rewrite E. unfold trace_of. cbn [fst app observations].
      rewrite observations_app. 
      constructor; [cbn; lia|]. constructor; [cbn; lia|].
      apply Forall_app. split.
      * eapply Forall_impl; [|exact O].
        intros p (Ht & _ & _ & Hp & He). cbn in *. lia.
      * pose proof (failures_le w (fetched r1 r2)).
        cbn [observations]. constructor; [cbn; lia|]. constructor.
Qed.

(** C1: the progress invariant [errors <= processed] is broken on the
    reported-error branch.  With one candidate whose invocation reports an
    error, the states observed are listed below; the third one, between
    the error-count and the processed-count increments, has [errors = 1]
    and [processed = 0]. *)
Theorem reported_error_counted_before_processed :
  observations
    (trace_of (enrichMissingData Inputs.one_reported_error
                 EnrichmentProgress.initial EnrichmentProgress.initial))
  = [ EnrichmentProgress.Build 0 0 0 true;
      EnrichmentProgress.Build 1 0 0 true;
      EnrichmentProgress.Build 1 0 1 true;
      EnrichmentProgress.Build 1 1 1 true;
      EnrichmentProgress.Build 1 1 1 false ]
  /\ ~ (EnrichmentProgress.errors (EnrichmentProgress.Build 1 0 1 true)
        <= EnrichmentProgress.processed (EnrichmentProgress.Build 1 0 1 true)).
Proof. split; [vm_compute; reflexivity | simpl; lia]. Qed.

(** C2: when both candidate queries answer and [M] of the [N] invocations
    fail (reported error or rejection), the run ends in the state
    [{total: N, processed: N, errors: M, isRunning: false}] and does not
    throw; with [M = 0] this is [{N, N, 0, false}]. *)
Theorem run_final_progress w progress st r1 r2 (M : nat) :
  EnrichmentProgress.isRunning progress = false ->
  from_Forskolor (supabase w) preschoolsWithoutData_query = Fulfilled r1 ->
  from_Forskolor (supabase w) preschoolsWithOldData_query = Fulfilled r2 ->
  error r1 = None ->
  error r2 = None ->
  failures w (fetched r1 r2) = M ->
  state_of (enrichMissingData w progress st)
  = {| EnrichmentProgress.total := length (fetched r1 r2);
       EnrichmentProgress.processed := length (fetched r1 r2);
       EnrichmentProgress.errors := M;
       EnrichmentProgress.isRunning := false |}
  /\ completion_of (enrichMissingData w progress st) = Normal tt.
Proof.
  intros Hrun Q1 Q2 E1 E2 HM.
  destruct (run_fetched w progress st r1 r2 Hrun Q1 Q2 E1 E2) as (t & E & _).
  rewrite E, HM. split; reflexivity.
Qed.

Lemma run_final_progress_witness :
  state_of (enrichMissingData Inputs.seven EnrichmentProgress.initial EnrichmentProgress.initial)
  = EnrichmentProgress.Build 7 7 2 false
  /\ completion_of (enrichMissingData Inputs.seven EnrichmentProgress.initial
                      EnrichmentProgress.initial) = Normal tt.
Proof.
  apply (run_final_progress Inputs.seven EnrichmentProgress.initial EnrichmentProgress.initial
           {| data := Some (Inputs.preschools 7); error := None |}
           {| data := Some []; error := None |} 2); reflexivity.
Defined.

(** C3: in a render whose state has the running flag set, calling
    [enrichMissingData] does nothing: the trace is empty (no store query,
    no invocation, no state update), the live state is unchanged and the
    call returns normally. *)
Theorem run_while_running_is_noop w progress st :
  EnrichmentProgress.isRunning progress = true ->
  hook_enrichMissingData (useGoogleDataEnrichment w progress) st = ([], st, Normal tt)
  /\ queries (trace_of (hook_enrichMissingData (useGoogleDataEnrichment w progress) st)) = []
  /\ invocations (trace_of (hook_enrichMissingData (useGoogleDataEnrichment w progress) st)) = []
  /\ state_of (hook_enrichMissingData (useGoogleDataEnrichment w progress) st) = st.
Proof.
  intros Hrun. unfold useGoogleDataEnrichment, hook_enrichMissingData, enrichMissingData.
  rewrite Hrun. repeat split.
Qed.

Lemma run_while_running_is_noop_witness :
  hook_enrichMissingData (useGoogleDataEnrichment Inputs.seven Inputs.running) Inputs.running
  = ([], Inputs.running, Normal tt).
Proof.
  apply (run_while_running_is_noop Inputs.seven Inputs.running Inputs.running).
  reflexivity.
Defined.

(** C4: every run ends with the running flag cleared and without throwing;
    when one of the two candidate queries fails, no invocation is
    dispatched and [processed] and [errors] are [0] in every observed state
    and in the final one. *)
Theorem fetch_failure_aborts_run w progress st :
  EnrichmentProgress.isRunning progress = false ->
  (EnrichmentProgress.isRunning (state_of (enrichMissingData w progress st)) = false
   /\ completion_of (enrichMissingData w progress st) = Normal tt)
  /\ (fetch_failed w = true ->
      invocations (trace_of (enrichMissingData w progress st)) = []
      /\ Forall (fun p => EnrichmentProgress.processed p = 0
                          /\ EnrichmentProgress.errors p = 0)
                (observations (trace_of (enrichMissingData w progress st)))
      /\ EnrichmentProgress.processed (state_of (enrichMissingData w progress st)) = 0
      /\ EnrichmentProgress.errors (state_of (enrichMissingData w progress st)) = 0).
Proof.
  intros Hrun. split.
  - destruct (fetch_failed w) eqn:Hfetch.
    + destruct (run_aborted w progress st Hrun Hfetch) as (t & E & _).
      rewrite E. split; reflexivity.
    + destruct (fetch_succeeded w Hfetch) as (r1 & r2 & Q1 & Q2 & E1 & E2).
      destruct (run_fetched w progress st r1 r2 Hrun Q1 Q2 E1 E2) as (t & E & _).
      rewrite E. split; reflexivity.
  - intros Hfetch.
    destruct (run_aborted w progress st Hrun Hfetch) as (t & E & I & O).
    rewrite E. unfold trace_of, state_of. cbn [fst snd invocations observations].
    rewrite invocations_app, observations_app, I, O. cbn [app invocations observations].
    repeat split. repeat constructor.
Qed.

Lemma fetch_failure_aborts_run_witness :
  EnrichmentProgress.isRunning
    (state_of (enrichMissingData Inputs.fetch_error Inputs.after_five Inputs.after_five)) = false
  /\ invocations
       (trace_of (enrichMissingData Inputs.fetch_error Inputs.after_five Inputs.after_five)) = []
  /\ EnrichmentProgress.processed
       (state_of (enrichMissingData Inputs.fetch_error Inputs.after_five Inputs.after_five)) = 0.
Proof.
  destruct (fetch_failure_aborts_run Inputs.fetch_error Inputs.after_five Inputs.after_five
              eq_refl) as [[Hflag _] Habort].
  destruct (Habort eq_refl) as (Hinv & _ & Hproc & _).
  exact (conj Hflag (conj Hinv Hproc)).
Defined.

(** C10: a run aborted by a failing candidate query leaves [total] as it
    was before the run, in every observed state and in the final one,
    where [processed] and [errors] are [0] and the running flag is
    cleared. *)
Theorem aborted_run_keeps_total w progress st :
  EnrichmentProgress.isRunning progress = false ->
  fetch_failed w = true ->
  state_of (enrichMissingData w progress st)
  = {| EnrichmentProgress.total := EnrichmentProgress.total st;
       EnrichmentProgress.processed := 0;
       EnrichmentProgress.errors := 0;
       EnrichmentProgress.isRunning := false |}
  /\ Forall (fun p => EnrichmentProgress.total p = EnrichmentProgress.total st)
            (observations (trace_of (enrichMissingData w progress st))).
Proof.
  intros Hrun Hfetch.
  destruct (run_aborted w progress st Hrun Hfetch) as (t & E & _ & O).
  rewrite E. unfold trace_of, state_of. cbn [fst snd observations].
  rewrite observations_app, O. split; [reflexivity|].
  repeat constructor.
Qed.

Lemma aborted_run_keeps_total_witness :
  state_of (enrichMissingData Inputs.fetch_error Inputs.after_five Inputs.after_five)
  = EnrichmentProgress.Build 5 0 0 false
  /\ Forall (fun p => EnrichmentProgress.total p = 5)
            (observations
               (trace_of (enrichMissingData Inputs.fetch_error Inputs.after_five
                            Inputs.after_five))).
Proof.
  apply (aborted_run_keeps_total Inputs.fetch_error Inputs.after_five Inputs.after_five);
    reflexivity.
Defined.

(** After a run over the fetched candidates, an aborted run leaves their
    number in [total]. *)
Lemma aborted_run_reports_earlier_count w0 w progress0 st0 r1 r2 :
  EnrichmentProgress.isRunning progress0 = false ->
  from_Forskolor (supabase w0) preschoolsWithoutData_query = Fulfilled r1 ->
  from_Forskolor (supabase w0) preschoolsWithOldData_query = Fulfilled r2 ->
  error r1 = None ->
  error r2 = None ->
  fetch_failed w = true ->
  let st1 := state_of (enrichMissingData w0 progress0 st0) in
  EnrichmentProgress.total
    (state_of (hook_enrichMissingData (useGoogleDataEnrichment w st1) st1))
  = length (fetched r1 r2).
Proof.
  intros Hrun Q1 Q2 E1 E2 Hfetch st1.
  destruct (run_fetched w0 progress0 st0 r1 r2 Hrun Q1 Q2 E1 E2) as (t & E & _).
  assert (Hst1 : st1 = stop_run (advance (length (fetched r1 r2)) (failures w0 (fetched r1 r2))
                                   (set_total (length (fetched r1 r2)) (start_run st0)))).
  { unfold st1. rewrite E. reflexivity. }
  assert (Hidle : EnrichmentProgress.isRunning st1 = false) by (rewrite Hst1; reflexivity).
  cbn [useGoogleDataEnrichment hook_enrichMissingData].
  destruct (run_aborted w st1 st1 Hidle Hfetch) as (t' & E' & _).
  rewrite E'. unfold state_of. cbn [fst snd]. rewrite Hst1. reflexivity.
Qed.

Lemma schedule_from_silent_tail pending t u :
  Forall silent u -> schedule_from pending (t ++ u) = schedule_from pending t.
Proof.
  intros Hu. revert pending. induction t as [|ev t IH]; intros pending.
  - cbn [app]. rewrite <- (app_nil_r u), (schedule_from_silent pending u [] Hu). reflexivity.
  - destruct ev; cbn [app schedule_from]; rewrite ?IH; reflexivity.
Qed.

(** C5: the schedule of a run is the fetched candidates cut into
    consecutive batches of three, in list order, with a pause of 2000
    between two consecutive batches and none after the last; for seven
    candidates the batch sizes are [3; 3; 1] and there are two pauses. *)
Theorem batches_of_three_with_pauses w progress st r1 r2 :
  EnrichmentProgress.isRunning progress = false ->
  from_Forskolor (supabase w) preschoolsWithoutData_query = Fulfilled r1 ->
  from_Forskolor (supabase w) preschoolsWithOldData_query = Fulfilled r2 ->
  error r1 = None ->
  error r2 = None ->
  schedule (trace_of (enrichMissingData w progress st))
  = paused_between 2000 (consecutive_batches 3 (map invoke_body (fetched r1 r2)))
  /\ (length (fetched r1 r2) = 7 ->
      batch_sizes (schedule (trace_of (enrichMissingData w progress st))) = [3; 3; 1]
      /\ pauses (schedule (trace_of (enrichMissingData w progress st))) = [2000; 2000]).
Proof.
  intros Hrun Q1 Q2 E1 E2.
  destruct (run_fetched w progress st r1 r2 Hrun Q1 Q2 E1 E2) as (t & E & _ & S & _).
  assert (Hs : schedule (trace_of (enrichMissingData w progress st))
               = paused_between 2000
                   (consecutive_batches 3 (map invoke_body (fetched r1 r2)))).
  { rewrite E. unfold trace_of, schedule. cbn [fst app schedule_from].
    rewrite schedule_from_silent_tail by (repeat constructor).
    exact S. }
  split; [exact Hs|].
  intros H7. rewrite Hs.
  destruct (fetched r1 r2) as [|a [|b [|c [|d [|e [|f [|g [|h l]]]]]]]]; try discriminate.
  cbn [map]. simp consecutive_batches. cbn [firstn skipn].
  simp consecutive_batches. cbn [firstn skipn]. simp consecutive_batches.
  split; reflexivity.
Qed.

Lemma batches_of_three_with_pauses_witness :
  schedule (trace_of (enrichMissingData Inputs.seven EnrichmentProgress.initial
                        EnrichmentProgress.initial))
  = paused_between 2000
      (consecutive_batches 3 (map invoke_body (Inputs.preschools 7)))
  /\ batch_sizes
       (schedule (trace_of (enrichMissingData Inputs.seven EnrichmentProgress.initial
                              EnrichmentProgress.initial))) = [3; 3; 1]
  /\ pauses
       (schedule (trace_of (enrichMissingData Inputs.seven EnrichmentProgress.initial
                              EnrichmentProgress.initial))) = [2000; 2000].
Proof.
  destruct (batches_of_three_with_pauses Inputs.seven EnrichmentProgress.initial
              EnrichmentProgress.initial
              {| data := Some (Inputs.preschools 7); error := None |}
              {| data := Some []; error := None |}
              eq_refl eq_refl eq_refl eq_refl eq_refl) as [Hs H7].
  destruct (H7 eq_refl) as [Hsizes Hpauses].
  exact (conj Hs (conj Hsizes Hpauses)).
Defined.


(** The second candidate query selects no row, whatever the store holds. *)
Lemma old_data_query_selects_nothing (table : list Preschool.t) :
  Store.rows_of preschoolsWithOldData_query table = [].
Proof.
  unfold Store.rows_of. cbn [filters limit preschoolsWithOldData_query Store.limited].
  induction table as [|r table IH]; [reflexivity|].
  cbn [filter forallb Store.passes Store.member].
  destruct (Store.text "id" r); cbn [existsb]; rewrite !andb_false_r; exact IH.
Qed.

(** The first candidate query selects the first 25 located rows, enriched
    or not. *)
Lemma without_data_query_selects_located (table : list Preschool.t) :
  Store.rows_of preschoolsWithoutData_query table
  = firstn 25 (filter Store.located table).
Proof.
  unfold Store.rows_of. cbn [filters limit preschoolsWithoutData_query Store.limited].
  f_equal. apply filter_ext. intros r.
  unfold Store.located. cbn.
  destruct (Preschool.Latitud r), (Preschool.Longitud r); reflexivity.
Qed.

(** C6: the second candidate query misses a stale candidate.  The store
    holds one located preschool enriched eight days ago, and the query
    answers with no row. *)
Theorem stale_candidate_not_fetched :
  In (Inputs.preschool 0) (Store.Forskolor Inputs.enriched_long_ago)
  /\ Store.located (Inputs.preschool 0) = true
  /\ Store.stale Inputs.enriched_long_ago Inputs.eight_days (Inputs.preschool 0) = true
  /\ from_Forskolor (Store.client Inputs.enriched_long_ago Inputs.succeeds)
       preschoolsWithOldData_query
     = Fulfilled {| data := Some []; error := None |}.
Proof.
  split; [left; reflexivity|].
  split; [reflexivity|].
  split; [vm_compute; reflexivity|].
  cbn [from_Forskolor Store.client]. rewrite old_data_query_selects_nothing. reflexivity.
Qed.

(** C7: the first candidate query returns a preschool that already has
    enrichment data. *)
Theorem enriched_candidate_fetched_as_missing :
  Store.enriched Inputs.enriched_long_ago (Inputs.preschool 0) = true
  /\ from_Forskolor (Store.client Inputs.enriched_long_ago Inputs.succeeds)
       preschoolsWithoutData_query
     = Fulfilled {| data := Some [Inputs.preschool 0]; error := None |}.
Proof.
  split; [vm_compute; reflexivity|].
  cbn [from_Forskolor Store.client]. rewrite without_data_query_selects_located.
  reflexivity.
Qed.

(** C8, as stated, fails for 23 enriched of 40: the hook returns 57, while
    [100 * 23 / 40 = 57.5] rounds to 58. *)
Lemma percentage_of_23_in_40_is_57 :
  completion_of (getEnrichmentStats Inputs.twenty_three_of_forty EnrichmentProgress.initial)
  = Normal {| EnrichmentStats.total := 40;
              EnrichmentStats.enriched := 23;
              EnrichmentStats.percentage := 57 |}
  /\ rounded_percentage 23 40 = 58%Z
  /\ (57 <> rounded_percentage 23 40)%Z.
Proof. repeat split; vm_compute; (reflexivity || discriminate). Qed.

(** C9: when the count of enriched records answers with an error instead
    of rejecting, the stats are not the zero-valued object: the total is
    still reported. *)
Theorem stats_after_reported_query_error :
  query_failed (from_preschool_google_data (supabase Inputs.enriched_count_error)
                  enrichedPreschools_query) = true
  /\ completion_of (getEnrichmentStats Inputs.enriched_count_error EnrichmentProgress.initial)
     = Normal {| EnrichmentStats.total := 2;
                 EnrichmentStats.enriched := 0;
                 EnrichmentStats.percentage := 0 |}.
Proof. split; vm_compute; reflexivity. Qed.

(** When a counting query rejects, the zero-valued stats are returned. *)
Lemma stats_after_rejected_query w s :
  (exists e, from_Forskolor (supabase w) totalPreschools_query = Rejected e)
  \/ (exists e, from_preschool_google_data (supabase w) enrichedPreschools_query = Rejected e) ->
  completion_of (getEnrichmentStats w s)
  = Normal {| EnrichmentStats.total := 0;
              EnrichmentStats.enriched := 0;
              EnrichmentStats.percentage := 0 |}
  /\ state_of (getEnrichmentStats w s) = s.
Proof.
  unfold getEnrichmentStats, try_catch, bind, select_Forskolor,
    select_preschool_google_data, emit, await, ret.
  intros [[e Q] | [e Q]].
  - rewrite Q. split; reflexivity.
  - rewrite Q. destruct (from_Forskolor (supabase w) totalPreschools_query); split; reflexivity.
Qed.

Lemma forallb_seq (f : nat -> bool) (start len n : nat) :
  forallb f (seq start len) = true -> start <= n < start + len -> f n = true.
Proof.
  intros H Hn. rewrite forallb_forall in H. apply H. apply in_seq. exact Hn.
Qed.

(** For counts up to 200 the computed percentage is the rounded quotient,
    except that on an exact tie it may be the integer just below. *)
Lemma double_percentage_near_rounded (enriched total : nat) :
  0 < total <= 200 ->
  enriched <= 200 ->
  double_percentage enriched total = rounded_percentage enriched total
  \/ (double_percentage enriched total = (rounded_percentage enriched total - 1)%Z
      /\ (200 * Z.of_nat enriched + Z.of_nat total
          = 2 * Z.of_nat total * rounded_percentage enriched total)%Z).
Proof.
  intros Ht He.
  assert (Hall : forallb (fun t => forallb (fun e => rounded_or_tie_below e t) (seq 0 201))
                         (seq 1 200) = true) by (vm_compute; reflexivity).
  pose proof (forallb_seq _ 1 200 total Hall ltac:(lia)) as Hrow. cbv beta in Hrow.
  pose proof (forallb_seq _ 0 201 enriched Hrow ltac:(lia)) as Hcell.
  unfold rounded_or_tie_below in Hcell. cbv zeta in Hcell.
  apply orb_true_iff in Hcell. destruct Hcell as [H | H].
  - left. apply Z.eqb_eq. exact H.
  - right. apply andb_true_iff in H. destruct H as [H1 H2].
    split; apply Z.eqb_eq; assumption.
Qed.

(* ===================================================================== *)
(** ** Further properties of the hook *)
(* ===================================================================== *)


Lemma console_errors_app t1 t2 :
  console_errors (t1 ++ t2) = console_errors t1 ++ console_errors t2.
Proof.
  induction t1 as [|ev t1 IH]; simpl; [reflexivity|].
  destruct ev; simpl; rewrite IH; reflexivity.
Qed.

Lemma console_logs_app t1 t2 :
  console_logs (t1 ++ t2) = console_logs t1 ++ console_logs t2.
Proof.
  induction t1 as [|ev t1 IH]; simpl; [reflexivity|].
  destruct ev; simpl; rewrite IH; reflexivity.
Qed.

Lemma queries_app t1 t2 : queries (t1 ++ t2) = queries t1 ++ queries t2.
Proof.
  induction t1 as [|ev t1 IH]; simpl; [reflexivity|].
  destruct ev; simpl; rewrite IH; reflexivity.
Qed.

Lemma writes_app n1 n2 t1 t2 : writes n1 t1 -> writes n2 t2 -> writes (n1 + n2) (t1 ++ t2).
Proof.
  unfold writes. intros (L1 & Q1 & E1) (L2 & Q2 & E2).
  rewrite console_logs_app, queries_app, console_errors_app, length_app, L1, L2, Q1, Q2, E1, E2.
  repeat split.
Qed.

Lemma enrich_settled_writes p r s :
  writes (Nat.b2n (failed r)) (trace_of (enrich_settled p r s)).
Proof. destruct r as [[[e|]]|e]; repeat split. Qed.

Lemma settle_all_writes w (calls : list (nat * Preschool.t)) s :
  writes (length (filter (invocation_failed w) calls))
    (trace_of
       (for_each
          (fun '(k, preschool) =>
             settle
               (enrich_settled preschool
                  (functions_invoke (supabase w) k enricher (invoke_body preschool))))
          calls s)).
Proof.
  revert s. induction calls as [|[k p] calls IH]; intros s.
  - repeat split.
  - pose proof (enrich_settled_run p (functions_invoke (supabase w) k enricher (invoke_body p)) s)
      as (t1 & E1 & _).
    pose proof (enrich_settled_writes p (functions_invoke (supabase w) k enricher (invoke_body p)) s)
      as W1.
    rewrite E1 in W1. unfold trace_of in W1. cbn [fst] in W1.
    cbn [filter]. unfold invocation_failed at 1. cbn [fst snd].
    set (b := failed (functions_invoke (supabase w) k enricher (invoke_body p))) in *.
    assert (E1' : settle (enrich_settled p (functions_invoke (supabase w) k enricher
                                              (invoke_body p))) s
                  = (t1, advance 1 (Nat.b2n b) s, Normal tt))
      by (unfold settle, try_catch; rewrite E1; reflexivity).
    cbn [for_each]. rewrite (bind_run _ _ _ _ _ _ E1'). unfold trace_of at 1. cbn [fst].
    specialize (IH (advance 1 (Nat.b2n b) s)).
    pose proof (writes_app _ _ _ _ W1 IH) as W.
    destruct b; exact W.
Qed.

Lemma writes_invokes (batch : list Preschool.t) :
  writes 0 (map (fun preschool => Invoke enricher (invoke_body preschool)) batch).
Proof. induction batch as [|p batch IH]; [repeat split | exact IH]. Qed.

Lemma process_batch_writes w i batch s :
  writes (failures_from w i batch) (trace_of (process_batch w i batch s)).
Proof.
  destruct (settle_all_run w (arrange (settle_order w i) (indexed i batch)) s)
    as (t & E & _).
  pose proof (settle_all_writes w (arrange (settle_order w i) (indexed i batch)) s) as W.
  rewrite E in W. unfold trace_of in W. cbn [fst] in W.
  rewrite filter_length_arrange in W.
  unfold process_batch.
  rewrite (bind_run _ _ _ _ _ _ (dispatch_all_run batch s)).
  rewrite (bind_run _ _ _ _ _ _ E).
  unfold trace_of. cbn [fst].
  replace (failures_from w i batch) with (0 + (failures_from w i batch + 0)) by lia.
  apply writes_app; [apply writes_invokes|].
  apply writes_app; [exact W | repeat split].
Qed.

Lemma batches_writes w l :
  forall n i s,
    length l - i = n ->
    writes (failures_from w i (skipn i l)) (trace_of (batches w l i s)).
Proof.
  induction n as [n IH] using lt_wf_ind. intros i s Hn.
  destruct (Nat.le_gt_cases (length l) i) as [Hdone | Hmore].
  - rewrite (batches_done w l i Hdone), (skipn_all2 l Hdone). repeat split.
  - set (batch := firstn batchSize (skipn i l)).
    pose proof (process_batch_run w i batch s) as (t1 & E1 & _).
    pose proof (process_batch_writes w i batch s) as W1.
    rewrite E1 in W1. unfold trace_of in W1. cbn [fst] in W1.
    set (s1 := advance (length batch) (failures_from w i batch) s) in *.
    pose proof (IH (length l - (i + batchSize)) ltac:(unfold batchSize; lia)
                  (i + batchSize) s1 eq_refl) as W2.
    rewrite (batches_step w l i Hmore), slice_skipn. fold batch.
    rewrite (bind_run _ _ _ _ _ _ E1).
    rewrite (bind_run _ _ _ _ _ _ (timer_run _ s1)).
    unfold trace_of at 1 2. cbn [fst].
    rewrite (failures_from_split w i batchSize (skipn i l)), skipn_skipn.
    fold batch. rewrite (Nat.add_comm batchSize i).
    apply writes_app; [exact W1|].
    change (failures_from w (i + batchSize) (skipn (i + batchSize) l))
      with (0 + failures_from w (i + batchSize) (skipn (i + batchSize) l)).
    apply writes_app; [|exact W2].
    destruct (i + batchSize <? length l); repeat split.
Qed.

Lemma run_fetched_trace w progress st r1 r2 :
  EnrichmentProgress.isRunning progress = false ->
  from_Forskolor (supabase w) preschoolsWithoutData_query = Fulfilled r1 ->
  from_Forskolor (supabase w) preschoolsWithOldData_query = Fulfilled r2 ->
  error r1 = None ->
  error r2 = None ->
  trace_of (enrichMissingData w progress st)
  = [Console_log msg_starting;
     SetProgress (start_run st);
     Select "Forskolor" preschoolsWithoutData_query;
     Select "Forskolor" preschoolsWithOldData_query;
     Console_log (msg_found (length (fetched r1 r2)));
     SetProgress (set_total (length (fetched r1 r2)) (start_run st))]
      ++ trace_of (batches w (fetched r1 r2) 0
                     (set_total (length (fetched r1 r2)) (start_run st)))
      ++ [Console_log (msg_completed
                         (EnrichmentProgress.processed progress + length (fetched r1 r2))
                         (EnrichmentProgress.errors progress));
          SetProgress (state_of (enrichMissingData w progress st))].
Proof.
  intros Hrun Q1 Q2 E1 E2.
  destruct (batches_run w (fetched r1 r2) _ 0
              (set_total (length (fetched r1 r2)) (start_run st)) eq_refl)
    as (t & Ht & _).
  unfold enrichMissingData. rewrite Hrun.
  unfold try_finally, try_catch, select_Forskolor, bind, emit, await, setProgress.
  rewrite Q1, Q2, E1, E2. cbn [JS.or_else].
  fold (fetched r1 r2). rewrite Ht.
  unfold trace_of, state_of. cbn [fst snd app]. rewrite <- !app_assoc. reflexivity.
Qed.

Lemma batch_sizes_paused_between ms bs :
  batch_sizes (paused_between ms bs) = map (@length InvokeBody) bs.
Proof.
  induction bs as [|b bs IH]; [reflexivity|].
  destruct bs as [|b' bs]; [reflexivity|].
  cbn [paused_between batch_sizes map] in *. rewrite IH. reflexivity.
Qed.

Lemma pauses_paused_between ms bs :
  pauses (paused_between ms bs) = repeat ms (length bs - 1).
Proof.
  induction bs as [|b bs IH]; [reflexivity|].
  destruct bs as [|b' bs]; [reflexivity|].
  cbn [paused_between pauses length] in *. rewrite IH.
  cbn [Nat.sub]. rewrite Nat.sub_0_r. reflexivity.
Qed.

Lemma dispatched_paused_between ms bs : dispatched (paused_between ms bs) = bs.
Proof.
  induction bs as [|b bs IH]; [reflexivity|].
  destruct bs as [|b' bs]; [reflexivity|].
  cbn [paused_between dispatched] in *. rewrite IH. reflexivity.
Qed.

Lemma concat_consecutive_batches {A : Type} (k : nat) (l : list A) :
  concat (consecutive_batches (S k) l) = l.
Proof.
  remember (length l) as n eqn:Hn. revert l Hn.
  induction n as [n IH] using lt_wf_ind. intros l Hn.
  destruct l as [|x xs]; [rewrite consecutive_batches_nil; reflexivity|].
  rewrite consecutive_batches_step by discriminate.
  cbn [concat]. rewrite (IH (length (skipn (S k) (x :: xs)))); [apply firstn_skipn | | reflexivity].
  rewrite length_skipn. subst n. cbn [length]. lia.
Qed.

Lemma sizes_consecutive_batches {A : Type} (l : list A) :
  map (@length A) (consecutive_batches 3 l)
  = repeat 3 (length l / 3)
      ++ (if length l mod 3 =? 0 then [] else [length l mod 3]).
Proof.
  remember (length l) as n eqn:Hn. revert l Hn.
  induction n as [n IH] using lt_wf_ind. intros l Hn.
  destruct l as [|x xs]; [subst n; rewrite consecutive_batches_nil; reflexivity|].
  rewrite consecutive_batches_step by discriminate.
  cbn [map]. rewrite length_firstn.
  rewrite (IH (length (skipn 3 (x :: xs)))); [| | reflexivity];
    rewrite length_skipn; rewrite <- Hn; [|cbn [length] in Hn; lia].
  destruct (Nat.le_gt_cases 3 n) as [Hbig | Hsmall].
  - rewrite Nat.min_l by exact Hbig.
    assert (Hsplit : n = (n - 3) + 1 * 3) by lia.
    assert (Hdiv : n / 3 = S ((n - 3) / 3))
      by (rewrite Hsplit at 1; rewrite Nat.div_add by lia; lia).
    assert (Hmod : n mod 3 = (n - 3) mod 3)
      by (rewrite Hsplit at 1; apply Nat.Div0.mod_add).
    rewrite Hdiv, Hmod. reflexivity.
  - rewrite Nat.min_r by lia.
    replace (n - 3) with 0 by lia.
    assert (Hn' : n = 1 \/ n = 2) by (cbn [length] in Hn; lia).
    destruct Hn' as [-> | ->]; reflexivity.
Qed.

Lemma schedule_of_run w progress st r1 r2 :
  EnrichmentProgress.isRunning progress = false ->
  from_Forskolor (supabase w) preschoolsWithoutData_query = Fulfilled r1 ->
  from_Forskolor (supabase w) preschoolsWithOldData_query = Fulfilled r2 ->
  error r1 = None ->
  error r2 = None ->
  schedule (trace_of (enrichMissingData w progress st))
  = paused_between 2000 (consecutive_batches batchSize (map invoke_body (fetched r1 r2))).
Proof.
  intros Hrun Q1 Q2 E1 E2.
  destruct (run_fetched w progress st r1 r2 Hrun Q1 Q2 E1 E2) as (t & E & _ & S & _).
  rewrite E. unfold trace_of, schedule. cbn [fst app schedule_from].
  rewrite schedule_from_silent_tail by (repeat constructor).
  exact S.
Qed.

Lemma invocations_of_run w progress st r1 r2 :
  EnrichmentProgress.isRunning progress = false ->
  from_Forskolor (supabase w) preschoolsWithoutData_query = Fulfilled r1 ->
  from_Forskolor (supabase w) preschoolsWithOldData_query = Fulfilled r2 ->
  error r1 = None ->
  error r2 = None ->
  invocations (trace_of (enrichMissingData w progress st))
  = map invoke_body (fetched r1 r2).
Proof.
  intros Hrun Q1 Q2 E1 E2.
  destruct (run_fetched w progress st r1 r2 Hrun Q1 Q2 E1 E2) as (t & E & I & _).
  rewrite E. unfold trace_of. cbn [fst app invocations].
  rewrite invocations_app, I. cbn [invocations]. apply app_nil_r.
Qed.


(** X1: [getEnrichmentStats] never throws, whatever the client answers, and
    touches neither the progress state nor the enricher. *)
Theorem stats_never_throws w s :
  exists stats,
    completion_of (getEnrichmentStats w s) = Normal stats
    /\ state_of (getEnrichmentStats w s) = s
    /\ observations (trace_of (getEnrichmentStats w s)) = []
    /\ invocations (trace_of (getEnrichmentStats w s)) = [].
Proof.
  unfold getEnrichmentStats, try_catch, bind, select_Forskolor,
    select_preschool_google_data, emit, await, ret.
  destruct (from_Forskolor (supabase w) totalPreschools_query) as [r1 | e1];
    [destruct (from_preschool_google_data (supabase w) enrichedPreschools_query) as [r2 | e2]|];
    eexists; repeat split.
Qed.

Lemma stats_after_rejected_query_witness :
  completion_of (getEnrichmentStats Inputs.total_count_rejects Inputs.running)
  = Normal {| EnrichmentStats.total := 0;
              EnrichmentStats.enriched := 0;
              EnrichmentStats.percentage := 0 |}
  /\ state_of (getEnrichmentStats Inputs.total_count_rejects Inputs.running) = Inputs.running.
Proof.
  apply (stats_after_rejected_query Inputs.total_count_rejects Inputs.running).
  left. exists "network". reflexivity.
Defined.

Lemma double_percentage_near_rounded_witness :
  double_percentage 23 40 = rounded_percentage 23 40
  \/ (double_percentage 23 40 = (rounded_percentage 23 40 - 1)%Z
      /\ (200 * Z.of_nat 23 + Z.of_nat 40 = 2 * Z.of_nat 40 * rounded_percentage 23 40)%Z).
Proof. apply (double_percentage_near_rounded 23 40); lia. Defined.

(** X4: a run whose queries both answer invokes the enricher once per
    fetched candidate, first the rows of the first query and then those of
    the second, in order, a row returned twice being invoked twice; the
    body of each call is built from the row. *)
Theorem one_invocation_per_candidate w progress st r1 r2 :
  EnrichmentProgress.isRunning progress = false ->
  from_Forskolor (supabase w) preschoolsWithoutData_query = Fulfilled r1 ->
  from_Forskolor (supabase w) preschoolsWithOldData_query = Fulfilled r2 ->
  error r1 = None ->
  error r2 = None ->
  invocations (trace_of (enrichMissingData w progress st))
  = map invoke_body (JS.or_empty (data r1)) ++ map invoke_body (JS.or_empty (data r2)).
Proof.
  intros Hrun Q1 Q2 E1 E2.
  destruct (run_fetched w progress st r1 r2 Hrun Q1 Q2 E1 E2) as (t & E & I & _).
  rewrite E. unfold trace_of. cbn [fst app invocations].
  rewrite invocations_app, I. cbn [invocations]. rewrite app_nil_r.
  unfold fetched. apply map_app.
Qed.

Lemma one_invocation_per_candidate_witness :
  invocations (trace_of (enrichMissingData Inputs.seven EnrichmentProgress.initial
                           EnrichmentProgress.initial))
  = map invoke_body (Inputs.preschools 7) ++ map invoke_body [].
Proof.
  exact (one_invocation_per_candidate Inputs.seven EnrichmentProgress.initial
           EnrichmentProgress.initial
           {| data := Some (Inputs.preschools 7); error := None |}
           {| data := Some []; error := None |}
           eq_refl eq_refl eq_refl eq_refl eq_refl).
Defined.

(** X5: a run sends the first candidate query, and the second one whenever
    the first did not reject, also when the first answered with an error;
    it sends no other store query. *)
Theorem queries_of_run w progress st :
  EnrichmentProgress.isRunning progress = false ->
  queries (trace_of (enrichMissingData w progress st))
  = match from_Forskolor (supabase w) preschoolsWithoutData_query with
    | Fulfilled _ =>
        [("Forskolor", preschoolsWithoutData_query);
         ("Forskolor", preschoolsWithOldData_query)]
    | Rejected _ => [("Forskolor", preschoolsWithoutData_query)]
    end.
Proof.
  intros Hrun.
  destruct (from_Forskolor (supabase w) preschoolsWithoutData_query) as [r1 | e1] eqn:Q1.
  - destruct (from_Forskolor (supabase w) preschoolsWithOldData_query) as [r2 | e2] eqn:Q2.
    + destruct (error r1) as [e1|] eqn:E1; [|destruct (error r2) as [e2|] eqn:E2].
      * unfold enrichMissingData. rewrite Hrun.
        unfold try_finally, try_catch, select_Forskolor, bind, emit, await, setProgress.
        rewrite Q1, Q2, E1. reflexivity.
      * unfold enrichMissingData. rewrite Hrun.
        unfold try_finally, try_catch, select_Forskolor, bind, emit, await, setProgress.
        rewrite Q1, Q2, E1, E2. reflexivity.
      * rewrite (run_fetched_trace w progress st r1 r2 Hrun Q1 Q2 E1 E2).
        destruct (batches_writes w (fetched r1 r2) _ 0
                    (set_total (length (fetched r1 r2)) (start_run st)) eq_refl)
          as (_ & Hq & _).
        cbn [app queries]. rewrite queries_app, Hq. reflexivity.
    + unfold enrichMissingData. rewrite Hrun.
      unfold try_finally, try_catch, select_Forskolor, bind, emit, await, setProgress.
      rewrite Q1, Q2. reflexivity.
  - unfold enrichMissingData. rewrite Hrun.
    unfold try_finally, try_catch, select_Forskolor, bind, emit, await, setProgress.
    rewrite Q1. reflexivity.
Qed.

Lemma queries_of_run_witness :
  queries (trace_of (enrichMissingData Inputs.fetch_error Inputs.after_five Inputs.after_five))
  = [("Forskolor", preschoolsWithoutData_query);
     ("Forskolor", preschoolsWithOldData_query)].
Proof.
  exact (queries_of_run Inputs.fetch_error Inputs.after_five Inputs.after_five eq_refl).
Defined.

(** X7: the states a run passes through all have the running flag set,
    except the last one, which is the final state and has it cleared. *)
Theorem running_flag_during_run w progress st :
  EnrichmentProgress.isRunning progress = false ->
  exists during,
    observations (trace_of (enrichMissingData w progress st))
    = during ++ [state_of (enrichMissingData w progress st)]
    /\ during <> []
    /\ Forall (fun p => EnrichmentProgress.isRunning p = true) during
    /\ EnrichmentProgress.isRunning (state_of (enrichMissingData w progress st)) = false.
Proof.
  intros Hrun. destruct (fetch_failed w) eqn:Hfetch.
  - destruct (run_aborted w progress st Hrun Hfetch) as (t & E & _ & O).
    exists [start_run st]. rewrite E. unfold trace_of, state_of. cbn [fst snd observations].
    rewrite observations_app, O.
    split; [reflexivity|]. split; [discriminate|]. split; [|reflexivity].
    constructor; [reflexivity | constructor].
  - destruct (fetch_succeeded w Hfetch) as (r1 & r2 & Q1 & Q2 & E1 & E2).
    destruct (run_fetched w progress st r1 r2 Hrun Q1 Q2 E1 E2) as (t & E & _ & _ & O).
    exists (start_run st :: set_total (length (fetched r1 r2)) (start_run st)
              :: observations t).
    rewrite E. unfold trace_of, state_of. cbn [fst snd app observations].
    rewrite observations_app.
    split; [reflexivity|]. split; [discriminate|]. split; [|reflexivity].
    constructor; [reflexivity|]. constructor; [reflexivity|].
    eapply Forall_impl; [|exact O].
    intros p (_ & Hflag & _). rewrite Hflag. reflexivity.
Qed.

Lemma running_flag_during_run_witness :
  exists during,
    observations (trace_of (enrichMissingData Inputs.seven Inputs.after_five Inputs.after_five))
    = during ++ [state_of (enrichMissingData Inputs.seven Inputs.after_five Inputs.after_five)]
    /\ during <> []
    /\ Forall (fun p => EnrichmentProgress.isRunning p = true) during
    /\ EnrichmentProgress.isRunning
         (state_of (enrichMissingData Inputs.seven Inputs.after_five Inputs.after_five)) = false.
Proof.
  exact (running_flag_during_run Inputs.seven Inputs.after_five Inputs.after_five eq_refl).
Defined.

Lemma failures_same_client w w' l :
  supabase w' = supabase w -> failures w' l = failures w l.
Proof.
  intros Hc. unfold failures, failures_from. f_equal. apply filter_ext.
  intros call. unfold invocation_failed. rewrite Hc. reflexivity.
Qed.

Lemma fetch_failed_same_client w w' :
  supabase w' = supabase w -> fetch_failed w' = fetch_failed w.
Proof. intros Hc. unfold fetch_failed. rewrite Hc. reflexivity. Qed.

(** X8: the final progress state and the invocations of a run depend on
    the client only, not on the order in which the calls of a batch settle
    nor on the clock. *)
Theorem final_state_independent_of_settle_order w clock order progress st :
  state_of (enrichMissingData
              {| supabase := supabase w; now := clock; settle_order := order |} progress st)
  = state_of (enrichMissingData w progress st)
  /\ invocations
       (trace_of (enrichMissingData
                    {| supabase := supabase w; now := clock; settle_order := order |}
                    progress st))
     = invocations (trace_of (enrichMissingData w progress st)).
Proof.
  set (w' := {| supabase := supabase w; now := clock; settle_order := order |}).
  assert (Hc : supabase w' = supabase w) by reflexivity.
  destruct (EnrichmentProgress.isRunning progress) eqn:Hrun.
  - unfold enrichMissingData. rewrite Hrun. split; reflexivity.
  - destruct (fetch_failed w) eqn:Hfetch.
    + pose proof (fetch_failed_same_client w w' Hc) as Hfetch'. rewrite Hfetch in Hfetch'.
      destruct (run_aborted w progress st Hrun Hfetch) as (t & E & I & _).
      destruct (run_aborted w' progress st Hrun Hfetch') as (t' & E' & I' & _).
      rewrite E, E'. unfold trace_of, state_of. cbn [fst snd invocations].
      rewrite !invocations_app, I, I'. split; reflexivity.
    + destruct (fetch_succeeded w Hfetch) as (r1 & r2 & Q1 & Q2 & E1 & E2).
      destruct (run_fetched w progress st r1 r2 Hrun Q1 Q2 E1 E2) as (t & E & I & _).
      destruct (run_fetched w' progress st r1 r2 Hrun Q1 Q2 E1 E2) as (t' & E' & I' & _).
      rewrite E, E'. unfold trace_of, state_of. cbn [fst snd app invocations].
      rewrite !invocations_app, I, I', (failures_same_client w w' _ Hc).
      split; reflexivity.
Qed.

Lemma thirds (n : nat) :
  n / 3 + (if n mod 3 =? 0 then 0 else 1) = (n + 2) / 3.
Proof.
  pose proof (Nat.div_mod_eq n 3) as Hn.
  pose proof (Nat.mod_upper_bound n 3 ltac:(lia)) as Hr.
  rewrite Hn at 3.
  replace (3 * (n / 3) + n mod 3 + 2) with (n / 3 * 3 + (n mod 3 + 2)) by lia.
  rewrite Nat.div_add_l by lia.
  destruct (n mod 3) as [|[|[|r]]]; [reflexivity | reflexivity | reflexivity | lia].
Qed.

(** X9: for [N] fetched candidates the batches have sizes 3, ..., 3 and,
    when 3 does not divide [N], a last batch of [N mod 3]; the run waits
    [ceil (N / 3) - 1] times, 2000 each time. *)
Theorem batch_sizes_and_pauses w progress st r1 r2 :
  EnrichmentProgress.isRunning progress = false ->
  from_Forskolor (supabase w) preschoolsWithoutData_query = Fulfilled r1 ->
  from_Forskolor (supabase w) preschoolsWithOldData_query = Fulfilled r2 ->
  error r1 = None ->
  error r2 = None ->
  batch_sizes (schedule (trace_of (enrichMissingData w progress st)))
  = repeat 3 (length (fetched r1 r2) / 3)
      ++ (if length (fetched r1 r2) mod 3 =? 0 then [] else [length (fetched r1 r2) mod 3])
  /\ pauses (schedule (trace_of (enrichMissingData w progress st)))
     = repeat 2000 ((length (fetched r1 r2) + 2) / 3 - 1).
Proof.
  intros Hrun Q1 Q2 E1 E2.
  rewrite (schedule_of_run w progress st r1 r2 Hrun Q1 Q2 E1 E2).
  rewrite batch_sizes_paused_between, pauses_paused_between.
  pose proof (sizes_consecutive_batches (map invoke_body (fetched r1 r2))) as Hsizes.
  rewrite length_map in Hsizes. split; [exact Hsizes|].
  f_equal. f_equal.
  rewrite <- (length_map (@length InvokeBody)). unfold batchSize. rewrite Hsizes.
  rewrite length_app, repeat_length, <- thirds.
  destruct (length (fetched r1 r2) mod 3 =? 0); reflexivity.
Qed.

Lemma batch_sizes_and_pauses_witness :
  batch_sizes (schedule (trace_of (enrichMissingData Inputs.seven EnrichmentProgress.initial
                                     EnrichmentProgress.initial)))
  = [3; 3; 1]
  /\ pauses (schedule (trace_of (enrichMissingData Inputs.seven EnrichmentProgress.initial
                                   EnrichmentProgress.initial)))
     = [2000; 2000].
Proof.
  exact (batch_sizes_and_pauses Inputs.seven EnrichmentProgress.initial
           EnrichmentProgress.initial
           {| data := Some (Inputs.preschools 7); error := None |}
           {| data := Some []; error := None |}
           eq_refl eq_refl eq_refl eq_refl eq_refl).
Defined.

(** X10: the dispatched batches, put end to end, are the fetched candidates
    in order, and every batch holds between one and three of them: each
    candidate is in exactly one batch. *)
Theorem batches_partition_candidates w progress st r1 r2 :
  EnrichmentProgress.isRunning progress = false ->
  from_Forskolor (supabase w) preschoolsWithoutData_query = Fulfilled r1 ->
  from_Forskolor (supabase w) preschoolsWithOldData_query = Fulfilled r2 ->
  error r1 = None ->
  error r2 = None ->
  concat (dispatched (schedule (trace_of (enrichMissingData w progress st))))
  = map invoke_body (fetched r1 r2)
  /\ Forall (fun batch => 1 <= length batch <= 3)
            (dispatched (schedule (trace_of (enrichMissingData w progress st)))).
Proof.
  intros Hrun Q1 Q2 E1 E2.
  rewrite (schedule_of_run w progress st r1 r2 Hrun Q1 Q2 E1 E2).
  rewrite dispatched_paused_between. unfold batchSize.
  split; [apply concat_consecutive_batches|].
  pose proof (sizes_consecutive_batches (map invoke_body (fetched r1 r2))) as Hsizes.
  apply Forall_map with (f := @length InvokeBody) (P := fun n => 1 <= n <= 3).
  rewrite Hsizes. apply Forall_app. split.
  - apply Forall_forall. intros n Hn. apply repeat_spec in Hn. lia.
  - pose proof (Nat.mod_upper_bound (length (map invoke_body (fetched r1 r2))) 3 ltac:(lia)).
    destruct (Nat.eqb_spec (length (map invoke_body (fetched r1 r2)) mod 3) 0);
      constructor; [lia | constructor].
Qed.

Lemma batches_partition_candidates_witness :
  concat (dispatched (schedule (trace_of (enrichMissingData Inputs.seven
                                            EnrichmentProgress.initial
                                            EnrichmentProgress.initial))))
  = map invoke_body (Inputs.preschools 7 ++ [])
  /\ Forall (fun batch => 1 <= length batch <= 3)
            (dispatched (schedule (trace_of (enrichMissingData Inputs.seven
                                               EnrichmentProgress.initial
                                               EnrichmentProgress.initial)))).
Proof.
  exact (batches_partition_candidates Inputs.seven EnrichmentProgress.initial
           EnrichmentProgress.initial
           {| data := Some (Inputs.preschools 7); error := None |}
           {| data := Some []; error := None |}
           eq_refl eq_refl eq_refl eq_refl eq_refl).
Defined.

(** X11: the per-candidate callback never throws; whatever the invocation
    does, it counts the candidate as processed once, counts one error and
    writes one [console.error] exactly when the invocation failed, and
    leaves [total] and the running flag alone. *)
Theorem candidate_counted_once preschool settled s :
  completion_of (enrich_settled preschool settled s) = Normal tt
  /\ state_of (enrich_settled preschool settled s)
     = {| EnrichmentProgress.total := EnrichmentProgress.total s;
          EnrichmentProgress.processed := EnrichmentProgress.processed s + 1;
          EnrichmentProgress.errors :=
            EnrichmentProgress.errors s + (if failed settled then 1 else 0);
          EnrichmentProgress.isRunning := EnrichmentProgress.isRunning s |}
  /\ length (console_errors (trace_of (enrich_settled preschool settled s)))
     = (if failed settled then 1 else 0).
Proof.
  destruct settled as [[[e|]]|e]; cbn; repeat split.
  unfold count_processed. cbn. rewrite Nat.add_0_r. reflexivity.
Qed.

(** X12: in a run whose queries both answer, the number of [console.error]
    messages equals the final error count. *)
Theorem failures_logged_once w progress st r1 r2 :
  EnrichmentProgress.isRunning progress = false ->
  from_Forskolor (supabase w) preschoolsWithoutData_query = Fulfilled r1 ->
  from_Forskolor (supabase w) preschoolsWithOldData_query = Fulfilled r2 ->
  error r1 = None ->
  error r2 = None ->
  length (console_errors (trace_of (enrichMissingData w progress st)))
  = EnrichmentProgress.errors (state_of (enrichMissingData w progress st)).
Proof.
  intros Hrun Q1 Q2 E1 E2.
  rewrite (run_fetched_trace w progress st r1 r2 Hrun Q1 Q2 E1 E2).
  destruct (run_fetched w progress st r1 r2 Hrun Q1 Q2 E1 E2) as (t & E & _).
  destruct (batches_writes w (fetched r1 r2) _ 0
              (set_total (length (fetched r1 r2)) (start_run st)) eq_refl)
    as (_ & _ & He).
  cbn [app console_errors]. rewrite console_errors_app, length_app, He.
  rewrite E. unfold state_of, failures.
  cbn [fst snd skipn console_errors length stop_run advance set_total start_run
         EnrichmentProgress.errors].
  lia.
Qed.

Lemma failures_logged_once_witness :
  length (console_errors (trace_of (enrichMissingData Inputs.seven EnrichmentProgress.initial
                                      EnrichmentProgress.initial)))
  = 2.
Proof.
  exact (failures_logged_once Inputs.seven EnrichmentProgress.initial
           EnrichmentProgress.initial
           {| data := Some (Inputs.preschools 7); error := None |}
           {| data := Some []; error := None |}
           eq_refl eq_refl eq_refl eq_refl eq_refl).
Defined.

(** X13: a run whose queries both answer writes three [console.log]
    messages.  The last one reports [progress.processed + N] and
    [progress.errors] of the render snapshot, not the counters of the run. *)
Theorem console_log_of_run w progress st r1 r2 :
  EnrichmentProgress.isRunning progress = false ->
  from_Forskolor (supabase w) preschoolsWithoutData_query = Fulfilled r1 ->
  from_Forskolor (supabase w) preschoolsWithOldData_query = Fulfilled r2 ->
  error r1 = None ->
  error r2 = None ->
  console_logs (trace_of (enrichMissingData w progress st))
  = [msg_starting;
     msg_found (length (fetched r1 r2));
     msg_completed (EnrichmentProgress.processed progress + length (fetched r1 r2))
                   (EnrichmentProgress.errors progress)].
Proof.
  intros Hrun Q1 Q2 E1 E2.
  rewrite (run_fetched_trace w progress st r1 r2 Hrun Q1 Q2 E1 E2).
  destruct (batches_writes w (fetched r1 r2) _ 0
              (set_total (length (fetched r1 r2)) (start_run st)) eq_refl)
    as (Hl & _ & _).
  cbn [app console_logs]. rewrite console_logs_app, Hl. reflexivity.
Qed.

Lemma console_log_of_run_witness :
  console_logs (trace_of (enrichMissingData Inputs.seven Inputs.after_five
                            EnrichmentProgress.initial))
  = [msg_starting; msg_found 7; msg_completed 12 1]
  /\ EnrichmentProgress.errors
       (state_of (enrichMissingData Inputs.seven Inputs.after_five
                    EnrichmentProgress.initial)) = 2.
Proof.
  split; [|reflexivity].
  exact (console_log_of_run Inputs.seven Inputs.after_five EnrichmentProgress.initial
           {| data := Some (Inputs.preschools 7); error := None |}
           {| data := Some []; error := None |}
           eq_refl eq_refl eq_refl eq_refl eq_refl).
Defined.

(** X14: when a run has ended, the callback of the next render starts a new
    run: its first state update resets the counters and sets the flag. *)
Theorem run_can_be_restarted w1 w2 progress st :
  EnrichmentProgress.isRunning progress = false ->
  hd_error
    (observations
       (trace_of
          (hook_enrichMissingData
             (useGoogleDataEnrichment w2 (state_of (enrichMissingData w1 progress st)))
             (state_of (enrichMissingData w1 progress st)))))
  = Some {| EnrichmentProgress.total :=
              EnrichmentProgress.total (state_of (enrichMissingData w1 progress st));
            EnrichmentProgress.processed := 0;
            EnrichmentProgress.errors := 0;
            EnrichmentProgress.isRunning := true |}.
Proof.
  intros Hrun.
  set (st1 := state_of (enrichMissingData w1 progress st)).
  assert (Hidle : EnrichmentProgress.isRunning st1 = false).
  { unfold st1. destruct (fetch_failed w1) eqn:Hfetch.
    - destruct (run_aborted w1 progress st Hrun Hfetch) as (t & E & _).
      rewrite E. reflexivity.
    - destruct (fetch_succeeded w1 Hfetch) as (r1 & r2 & Q1 & Q2 & E1 & E2).
      destruct (run_fetched w1 progress st r1 r2 Hrun Q1 Q2 E1 E2) as (t & E & _).
      rewrite E. reflexivity. }
  cbn [useGoogleDataEnrichment hook_enrichMissingData].
  destruct (fetch_failed w2) eqn:Hfetch.
  - destruct (run_aborted w2 st1 st1 Hidle Hfetch) as (t & E & _).
    rewrite E. reflexivity.
  - destruct (fetch_succeeded w2 Hfetch) as (r1 & r2 & Q1 & Q2 & E1 & E2).
    destruct (run_fetched w2 st1 st1 r1 r2 Hidle Q1 Q2 E1 E2) as (t & E & _).
    rewrite E. reflexivity.
Qed.

Lemma run_can_be_restarted_witness :
  hd_error
    (observations
       (trace_of
          (hook_enrichMissingData
             (useGoogleDataEnrichment Inputs.fetch_error
                (state_of (enrichMissingData Inputs.seven EnrichmentProgress.initial
                             EnrichmentProgress.initial)))
             (state_of (enrichMissingData Inputs.seven EnrichmentProgress.initial
                          EnrichmentProgress.initial)))))
  = Some (EnrichmentProgress.Build 7 0 0 true).
Proof.
  exact (run_can_be_restarted Inputs.seven Inputs.fetch_error EnrichmentProgress.initial
           EnrichmentProgress.initial eq_refl).
Defined.

(** X15: the guard reads the render snapshot only.  A callback created by
    an idle render starts a run whatever the live state is, even when a run
    is in flight: it resets the live counters, and clears the flag when it
    ends. *)
Theorem guard_reads_render_snapshot w progress st :
  EnrichmentProgress.isRunning progress = false ->
  hd_error (observations (trace_of (enrichMissingData w progress st)))
  = Some {| EnrichmentProgress.total := EnrichmentProgress.total st;
            EnrichmentProgress.processed := 0;
            EnrichmentProgress.errors := 0;
            EnrichmentProgress.isRunning := true |}
  /\ EnrichmentProgress.isRunning (state_of (enrichMissingData w progress st)) = false.
Proof.
  intros Hrun. destruct (fetch_failed w) eqn:Hfetch.
  - destruct (run_aborted w progress st Hrun Hfetch) as (t & E & _).
    rewrite E. split; reflexivity.
  - destruct (fetch_succeeded w Hfetch) as (r1 & r2 & Q1 & Q2 & E1 & E2).
    destruct (run_fetched w progress st r1 r2 Hrun Q1 Q2 E1 E2) as (t & E & _).
    rewrite E. split; reflexivity.
Qed.

Lemma guard_reads_render_snapshot_witness :
  hd_error (observations (trace_of (enrichMissingData Inputs.seven Inputs.after_five
                                      Inputs.running)))
  = Some (EnrichmentProgress.Build 5 0 0 true)
  /\ EnrichmentProgress.isRunning
       (state_of (enrichMissingData Inputs.seven Inputs.after_five Inputs.running)) = false.
Proof.
  exact (guard_reads_render_snapshot Inputs.seven Inputs.after_five Inputs.running eq_refl).
Defined.

(** X16: when both queries answer without rows (an empty or a null
    [data]), the run invokes nothing and waits for nothing; it sets
    [total] to [0] and ends idle. *)
Theorem empty_fetch_run w progress st r1 r2 :
  EnrichmentProgress.isRunning progress = false ->
  from_Forskolor (supabase w) preschoolsWithoutData_query = Fulfilled r1 ->
  from_Forskolor (supabase w) preschoolsWithOldData_query = Fulfilled r2 ->
  error r1 = None ->
  error r2 = None ->
  JS.or_empty (data r1) = [] ->
  JS.or_empty (data r2) = [] ->
  enrichMissingData w progress st
  = ([Console_log msg_starting;
      SetProgress (EnrichmentProgress.Build (EnrichmentProgress.total st) 0 0 true);
      Select "Forskolor" preschoolsWithoutData_query;
      Select "Forskolor" preschoolsWithOldData_query;
      Console_log (msg_found 0);
      SetProgress (EnrichmentProgress.Build 0 0 0 true);
      Console_log (msg_completed (EnrichmentProgress.processed progress + 0)
                                 (EnrichmentProgress.errors progress));
      SetProgress (EnrichmentProgress.Build 0 0 0 false)],
     EnrichmentProgress.Build 0 0 0 false,
     Normal tt).
Proof.
  intros Hrun Q1 Q2 E1 E2 D1 D2.
  unfold enrichMissingData. rewrite Hrun.
  unfold try_finally, try_catch, select_Forskolor, bind, emit, await, setProgress.
  rewrite Q1, Q2, E1, E2. cbn [JS.or_else]. rewrite D1, D2.
  cbn [app length]. rewrite batches_done by (cbn [length]; lia).
  reflexivity.
Qed.

Lemma empty_fetch_run_witness :
  enrichMissingData nothing_to_enrich Inputs.after_five Inputs.after_five
  = ([Console_log msg_starting;
      SetProgress (EnrichmentProgress.Build 5 0 0 true);
      Select "Forskolor" preschoolsWithoutData_query;
      Select "Forskolor" preschoolsWithOldData_query;
      Console_log (msg_found 0);
      SetProgress (EnrichmentProgress.Build 0 0 0 true);
      Console_log (msg_completed 5 1);
      SetProgress (EnrichmentProgress.Build 0 0 0 false)],
     EnrichmentProgress.Build 0 0 0 false,
     Normal tt).
Proof.
  exact (empty_fetch_run nothing_to_enrich Inputs.after_five Inputs.after_five
           {| data := Some []; error := None |}
           {| data := Some []; error := None |}
           eq_refl eq_refl eq_refl eq_refl eq_refl eq_refl eq_refl).
Defined.

Lemma aborted_run_reports_earlier_count_witness :
  EnrichmentProgress.total
    (state_of
       (hook_enrichMissingData
          (useGoogleDataEnrichment Inputs.fetch_error
             (state_of (enrichMissingData Inputs.seven EnrichmentProgress.initial
                          EnrichmentProgress.initial)))
          (state_of (enrichMissingData Inputs.seven EnrichmentProgress.initial
                       EnrichmentProgress.initial))))
  = 7.
Proof.
  exact (aborted_run_reports_earlier_count Inputs.seven Inputs.fetch_error
           EnrichmentProgress.initial EnrichmentProgress.initial
           {| data := Some (Inputs.preschools 7); error := None |}
           {| data := Some []; error := None |}
           eq_refl eq_refl eq_refl eq_refl eq_refl eq_refl).
Defined.

(** X18: against the record store, a run invokes the enricher for the first
    25 located preschools of the table, whatever the enrichment records and
    the clock are, and so never counts more than 25 candidates. *)
Theorem store_run_ignores_enrichment_records db invoke clock order progress st :
  EnrichmentProgress.isRunning progress = false ->
  invocations
    (trace_of (enrichMissingData
                 {| supabase := Store.client db invoke; now := clock; settle_order := order |}
                 progress st))
  = map invoke_body (firstn 25 (filter Store.located (Store.Forskolor db)))
  /\ EnrichmentProgress.total
       (state_of (enrichMissingData
                    {| supabase := Store.client db invoke; now := clock;
                       settle_order := order |}
                    progress st)) <= 25.
Proof.
  intros Hrun.
  set (w := {| supabase := Store.client db invoke; now := clock; settle_order := order |}).
  destruct (run_fetched w progress st
              {| data := Some (Store.rows_of preschoolsWithoutData_query (Store.Forskolor db));
                 error := None |}
              {| data := Some (Store.rows_of preschoolsWithOldData_query (Store.Forskolor db));
                 error := None |}
              Hrun eq_refl eq_refl eq_refl eq_refl) as (t & E & I & _).
  unfold fetched in E, I. cbn [data JS.or_empty] in E, I.
  rewrite old_data_query_selects_nothing, app_nil_r,
    without_data_query_selects_located in E, I.
  rewrite E. unfold trace_of, state_of. cbn [fst snd app invocations].
  rewrite invocations_app, I. cbn [invocations]. rewrite app_nil_r.
  split; [reflexivity|].
  cbn [stop_run advance set_total start_run EnrichmentProgress.total].
  rewrite length_firstn. apply Nat.le_min_l.
Qed.

Lemma store_run_ignores_enrichment_records_witness :
  invocations
    (trace_of (enrichMissingData
                 {| supabase := Store.client Inputs.enriched_long_ago Inputs.succeeds;
                    now := Inputs.eight_days; settle_order := fun _ => [] |}
                 EnrichmentProgress.initial EnrichmentProgress.initial))
  = map invoke_body (firstn 25 (filter Store.located (Inputs.preschools 1)))
  /\ EnrichmentProgress.total
       (state_of (enrichMissingData
                    {| supabase := Store.client Inputs.enriched_long_ago Inputs.succeeds;
                       now := Inputs.eight_days; settle_order := fun _ => [] |}
                    EnrichmentProgress.initial EnrichmentProgress.initial)) <= 25.
Proof.
  exact (store_run_ignores_enrichment_records Inputs.enriched_long_ago Inputs.succeeds
           Inputs.eight_days (fun _ => []) EnrichmentProgress.initial
           EnrichmentProgress.initial eq_refl).
Defined.

(* ===================================================================== *)
(** ** The percentage against the exact quotient *)
(* ===================================================================== *)

(** The double-precision operations are read through their specification
    on [spec_float]: a division or a multiplication rounds its exact result
    to a 53-bit mantissa, which moves it by at most one unit of the last
    place.  For counts below [2^32] the two roundings together stay well
    within the distance between [100 * enriched / total] and the nearest
    half-integer it does not sit on. *)

Section Doubles.

Local Open Scope Z_scope.

(** *** Digits *)

Lemma digits2_pos_bounds (p : positive) :
  2 ^ (Zpos (digits2_pos p) - 1) <= Zpos p < 2 ^ Zpos (digits2_pos p).
Proof.
  induction p as [p IH | p IH |]; cbn [digits2_pos].
  - rewrite Pos2Z.inj_succ, Z.pow_succ_r by lia.
    replace (Z.succ (Zpos (digits2_pos p)) - 1) with (Z.succ (Zpos (digits2_pos p) - 1)) by lia.
    rewrite Z.pow_succ_r by lia. lia.
  - rewrite Pos2Z.inj_succ, Z.pow_succ_r by lia.
    replace (Z.succ (Zpos (digits2_pos p)) - 1) with (Z.succ (Zpos (digits2_pos p) - 1)) by lia.
    rewrite Z.pow_succ_r by lia. lia.
  - cbn. lia.
Qed.

Lemma digits2_pos_unique (p : positive) (k : Z) :
  2 ^ (k - 1) <= Zpos p < 2 ^ k -> Zpos (digits2_pos p) = k.
Proof.
  intros [Hlo Hhi]. pose proof (digits2_pos_bounds p) as [Dlo Dhi].
  assert (Hk : 0 < k).
  { destruct (Z.lt_ge_cases 0 k) as [|Hk]; [assumption|].
    exfalso. destruct (Z.eq_dec k 0) as [-> | Hne].
    - cbn in Hhi. lia.
    - rewrite Z.pow_neg_r in Hhi by lia. lia. }
  destruct (Z.lt_trichotomy (Zpos (digits2_pos p)) k) as [Hlt | [Heq | Hgt]]; [|exact Heq|].
  - exfalso.
    assert (2 ^ Zpos (digits2_pos p) <= 2 ^ (k - 1)) by (apply Z.pow_le_mono_r; lia).
    lia.
  - exfalso.
    assert (2 ^ k <= 2 ^ (Zpos (digits2_pos p) - 1)) by (apply Z.pow_le_mono_r; lia).
    lia.
Qed.

(** *** Shifting right *)

Lemma shr_1_m (mrs : shr_record) :
  0 <= shr_m mrs -> shr_m (shr_1 mrs) = shr_m mrs / 2.
Proof.
  destruct mrs as [m r s]. cbn [shr_m]. intros Hm.
  rewrite <- Z.div2_div.
  destruct m as [|[p|p|]|p]; try reflexivity; lia.
Qed.

Lemma iter_shr_1_m (p : positive) :
  forall mrs, 0 <= shr_m mrs ->
    shr_m (iter_pos shr_1 p mrs) = shr_m mrs / 2 ^ Zpos p.
Proof.
  induction p as [p IH | p IH |]; intros mrs Hm; cbn [iter_pos].
  - assert (H1 : 0 <= shr_m (shr_1 mrs))
      by (rewrite shr_1_m by assumption; apply Z.div_pos; lia).
    assert (H2 : 0 <= shr_m (iter_pos shr_1 p (shr_1 mrs)))
      by (rewrite IH by assumption; apply Z.div_pos; [assumption | apply Z.pow_pos_nonneg; lia]).
    rewrite IH, IH, shr_1_m by assumption.
    rewrite !Z.div_div by (try apply Z.pow_pos_nonneg; lia).
    f_equal. rewrite Pos2Z.inj_xI, <- Z.pow_add_r, <- Z.pow_succ_r by lia. f_equal. lia.
  - assert (H2 : 0 <= shr_m (iter_pos shr_1 p mrs))
      by (rewrite IH by assumption; apply Z.div_pos; [assumption | apply Z.pow_pos_nonneg; lia]).
    rewrite IH, IH by assumption.
    rewrite !Z.div_div by (try apply Z.pow_pos_nonneg; lia).
    f_equal. rewrite Pos2Z.inj_xO, <- Z.pow_add_r by lia. f_equal. lia.
  - rewrite shr_1_m by assumption. reflexivity.
Qed.

Lemma shr_spec (mrs : shr_record) (e n : Z) :
  0 <= shr_m mrs -> 0 <= n ->
  shr_m (fst (shr mrs e n)) = shr_m mrs / 2 ^ n /\ snd (shr mrs e n) = e + n.
Proof.
  intros Hm Hn. destruct n as [|p|p]; cbn [shr fst snd]; [| |lia].
  - rewrite Z.pow_0_r, Z.div_1_r. split; lia.
  - split; [apply iter_shr_1_m; assumption | reflexivity].
Qed.

Lemma shr_record_of_loc_m (m : Z) (l : location) : shr_m (shr_record_of_loc m l) = m.
Proof. destruct l as [|[| |]]; reflexivity. Qed.

Lemma round_nearest_even_cases (m : Z) (l : location) :
  round_nearest_even m l = m \/ round_nearest_even m l = m + 1.
Proof.
  destruct l as [|[| |]]; cbn [round_nearest_even]; auto.
  destruct (Z.even m); auto.
Qed.

(** *** Rounding a mantissa to 53 bits *)

Lemma fexp_normal (x : Z) : -1074 <= x - 53 -> fexp prec emax x = x - 53.
Proof. intros H. unfold fexp, SpecFloat.emin, prec, emax. lia. Qed.

Lemma shr_fexp_spec (M ex : Z) (l : location) (n : Z) :
  0 <= M -> 0 <= n ->
  fexp prec emax (Zdigits2 M + ex) - ex = n ->
  shr_m (fst (shr_fexp prec emax M ex l)) = M / 2 ^ n
  /\ snd (shr_fexp prec emax M ex l) = ex + n.
Proof.
  intros HM Hn Hf. unfold shr_fexp. rewrite Hf.
  pose proof (shr_spec (shr_record_of_loc M l) ex n) as H.
  rewrite shr_record_of_loc_m in H. apply H; assumption.
Qed.

Lemma Zdigits2_53 (m : Z) : 2 ^ 52 <= m < 2 ^ 53 -> Zdigits2 m = 53.
Proof.
  intros Hm. destruct m as [|p|p]; try (cbn in Hm; lia).
  cbn [Zdigits2]. apply digits2_pos_unique. exact Hm.
Qed.

Lemma binary_round_aux_bracket (M ex : Z) (l : location) :
  2 ^ 52 <= M ->
  -1074 <= Zdigits2 M + ex - 53 ->
  Zdigits2 M + ex - 53 < 971 ->
  exists m e,
    binary_round_aux prec emax false M ex l = S754_finite false m e
    /\ 2 ^ 52 <= Zpos m < 2 ^ 53
    /\ ex + (Zdigits2 M - 53) <= e <= ex + (Zdigits2 M - 53) + 1
    /\ (Zpos m - 1) * 2 ^ (e - ex) <= M
    /\ M + 1 <= (Zpos m + 1) * 2 ^ (e - ex).
Proof.
  intros HM Hlo Hhi.
  destruct M as [|p|p]; try (cbn in HM; lia).
  set (M := Zpos p) in *. set (d := Zdigits2 M) in *.
  assert (Hd : 2 ^ (d - 1) <= M < 2 ^ d) by apply digits2_pos_bounds.
  assert (Hd53 : 53 <= d).
  { destruct (Z.lt_ge_cases d 53) as [Hlt|]; [|assumption]. exfalso.
    assert (2 ^ d <= 2 ^ 52) by (apply Z.pow_le_mono_r; lia). lia. }
  set (n := d - 53).
  assert (Hn : 0 <= n) by (unfold n; lia).
  assert (Hpow : 2 ^ (d - 1) = 2 ^ 52 * 2 ^ n /\ 2 ^ d = 2 ^ 53 * 2 ^ n).
  { split; rewrite <- Z.pow_add_r by lia; f_equal; unfold n; lia. }
  destruct Hpow as [Hp1 Hp2].
  assert (Hpn : 0 < 2 ^ n) by (apply Z.pow_pos_nonneg; lia).
  set (a := M / 2 ^ n).
  assert (Ha : a * 2 ^ n <= M < (a + 1) * 2 ^ n).
  { unfold a. pose proof (Z.mul_div_le M (2 ^ n) Hpn).
    pose proof (Z.mul_succ_div_gt M (2 ^ n) Hpn). lia. }
  assert (Ha53 : 2 ^ 52 <= a < 2 ^ 53).
  { split.
    - unfold a. apply Z.div_le_lower_bound; [exact Hpn|]. lia.
    - unfold a. apply Z.div_lt_upper_bound; [exact Hpn|]. lia. }
  unfold binary_round_aux.
  pose proof (shr_fexp_spec M ex l n ltac:(lia) Hn) as H1.
  fold d in H1. rewrite fexp_normal in H1 by lia.
  specialize (H1 ltac:(unfold n; lia)).
  destruct (shr_fexp prec emax M ex l) as [mrs' e'].
  cbn [fst snd] in H1. destruct H1 as [Hm' He']. fold a in Hm'.
  rewrite Hm'.
  set (m1 := round_nearest_even a (loc_of_shr_record mrs')).
  assert (Hm1 : m1 = a \/ m1 = a + 1) by apply round_nearest_even_cases.
  destruct (Z.lt_ge_cases m1 (2 ^ 53)) as [Hsmall | Hbig].
  - pose proof (shr_fexp_spec m1 e' loc_Exact 0 ltac:(lia) ltac:(lia)) as H2.
    rewrite (Zdigits2_53 m1) in H2 by lia.
    rewrite fexp_normal in H2 by lia.
    specialize (H2 ltac:(lia)).
    destruct (shr_fexp prec emax m1 e' loc_Exact) as [mrs'' e''].
    cbn [fst snd] in H2. destruct H2 as [Hm'' He''].
    rewrite Z.pow_0_r, Z.div_1_r in Hm''. rewrite Hm''.
    destruct m1 as [|q|q] eqn:Hq; try (exfalso; cbn in Ha53; lia).
    replace (e'' <=? emax - prec) with true
      by (symmetry; apply Z.leb_le; unfold emax, prec; lia).
    exists q, e''.
    replace (e'' - ex) with n by lia.
    split; [reflexivity|]. split; [lia|]. split; [fold n; lia|].
    split; nia.
  - assert (Hm1' : m1 = 2 ^ 53) by lia.
    pose proof (shr_fexp_spec m1 e' loc_Exact 1 ltac:(lia) ltac:(lia)) as H2.
    assert (Hd54 : Zdigits2 m1 = 54).
    { rewrite Hm1'. reflexivity. }
    rewrite Hd54, fexp_normal in H2 by lia.
    specialize (H2 ltac:(lia)).
    destruct (shr_fexp prec emax m1 e' loc_Exact) as [mrs'' e''].
    cbn [fst snd] in H2. destruct H2 as [Hm'' He''].
    rewrite Hm1' in Hm''. change (2 ^ 53 / 2 ^ 1) with (Zpos (2 ^ 52)) in Hm''.
    rewrite Hm''.
    replace (e'' <=? emax - prec) with true
      by (symmetry; apply Z.leb_le; unfold emax, prec; lia).
    exists (2 ^ 52)%positive, e''.
    replace (e'' - ex) with (n + 1) by lia.
    rewrite Z.pow_add_r, Z.pow_1_r by lia.
    split; [reflexivity|]. split; [cbn; lia|]. split; [fold n; lia|].
    change (Zpos (2 ^ 52)) with (2 ^ 52).
    split; nia.
Qed.

Lemma binary_round_aux_exact (p : positive) (ex : Z) :
  2 ^ 52 <= Zpos p < 2 ^ 53 ->
  -1074 <= ex <= 971 ->
  binary_round_aux prec emax false (Zpos p) ex loc_Exact = S754_finite false p ex.
Proof.
  intros Hp Hex.
  assert (Hshift : forall q, 2 ^ 52 <= Zpos q < 2 ^ 53 ->
            shr_fexp prec emax (Zpos q) ex loc_Exact
            = ({| shr_m := Zpos q; shr_r := false; shr_s := false |}, ex)).
  { intros q Hq. unfold shr_fexp.
    rewrite (Zdigits2_53 (Zpos q) Hq), fexp_normal by lia.
    replace (53 + ex - 53 - ex) with 0 by lia. reflexivity. }
  unfold binary_round_aux. rewrite (Hshift p Hp).
  cbn [shr_m loc_of_shr_record round_nearest_even]. rewrite (Hshift p Hp). cbn [shr_m].
  replace (ex <=? emax - prec) with true
    by (symmetry; apply Z.leb_le; unfold emax, prec; lia).
  reflexivity.
Qed.

Lemma iter_xO_pow (p k : positive) : Zpos (Pos.iter xO p k) = Zpos p * 2 ^ Zpos k.
Proof.
  induction k as [|k IH] using Pos.peano_ind.
  - cbn [Pos.iter]. rewrite Pos2Z.inj_xO. change (2 ^ 1) with 2. lia.
  - rewrite Pos.iter_succ, Pos2Z.inj_xO, IH, Pos2Z.inj_succ, Z.pow_succ_r by lia. lia.
Qed.

(** A positive array length below [2^53] converts exactly: the mantissa is
    the length shifted to 53 bits. *)
Lemma number_spec (n : nat) :
  0 < Z.of_nat n < 2 ^ 53 ->
  exists m,
    Prim2SF (JS.number n) = S754_finite false m (Zdigits2 (Z.of_nat n) - 53)
    /\ Zpos m = Z.of_nat n * 2 ^ (53 - Zdigits2 (Z.of_nat n))
    /\ 2 ^ 52 <= Zpos m < 2 ^ 53.
Proof.
  intros Hn. unfold JS.number.
  rewrite of_uint63_spec, Uint63.of_Z_spec.
  rewrite Z.mod_small by (split; [lia|]; apply Z.lt_trans with (2 ^ 53); [lia | reflexivity]).
  destruct (Z.of_nat n) as [|p|p] eqn:Hz; try lia.
  cbn [binary_normalize Zdigits2]. unfold binary_round.
  pose proof (digits2_pos_bounds p) as Hd.
  set (d := Zpos (digits2_pos p)) in *.
  assert (Hd1 : 1 <= d <= 53).
  { split; [unfold d; lia|].
    destruct (Z.le_gt_cases d 53) as [|Hgt]; [assumption|]. exfalso.
    assert (2 ^ 53 <= 2 ^ (d - 1)) by (apply Z.pow_le_mono_r; lia). lia. }
  rewrite fexp_normal by lia.
  unfold shl_align.
  destruct (d + 0 - 53 - 0) as [|k|k] eqn:Hk; try lia.
  - assert (Hd53 : d = 53) by lia.
    replace (d - 53) with 0 by lia.
    rewrite binary_round_aux_exact by (rewrite Hd53 in Hd; cbn in Hd |- *; lia).
    exists p. rewrite Hd53 in *. cbn in Hd |- *. split; [reflexivity|]. lia.
  - assert (Hkd : Zpos k = 53 - d) by lia.
    assert (Hm : Zpos (Pos.iter xO p k) = Zpos p * 2 ^ (53 - d))
      by (rewrite iter_xO_pow, Hkd; reflexivity).
    assert (Hsplit : 2 ^ 52 = 2 ^ (d - 1) * 2 ^ (53 - d) /\ 2 ^ 53 = 2 ^ d * 2 ^ (53 - d)).
    { split; rewrite <- Z.pow_add_r by lia; f_equal; lia. }
    assert (Hpos : 0 < 2 ^ (53 - d)) by (apply Z.pow_pos_nonneg; lia).
    assert (Hrange : 2 ^ 52 <= Zpos (Pos.iter xO p k) < 2 ^ 53).
    { rewrite Hm. destruct Hsplit as [-> ->]. nia. }
    replace (d + 0 - 53) with (d - 53) by lia.
    rewrite binary_round_aux_exact by (try exact Hrange; lia).
    exists (Pos.iter xO p k). split; [reflexivity|]. split; [exact Hm | exact Hrange].
Qed.

Lemma Zdigits2_range (M : Z) (lo hi : Z) :
  0 <= lo -> 2 ^ lo <= M < 2 ^ hi -> lo + 1 <= Zdigits2 M <= hi.
Proof.
  intros Hlo [H1 H2].
  assert (0 < M) by (pose proof (Z.pow_pos_nonneg 2 lo); lia).
  destruct M as [|p|p]; try lia.
  cbn [Zdigits2]. pose proof (digits2_pos_bounds p) as [D1 D2].
  set (d := Zpos (digits2_pos p)) in *.
  split.
  - destruct (Z.lt_ge_cases d (lo + 1)) as [Hlt|]; [|lia]. exfalso.
    assert (2 ^ d <= 2 ^ lo) by (apply Z.pow_le_mono_r; lia). lia.
  - destruct (Z.le_gt_cases d hi) as [|Hgt]; [assumption|]. exfalso.
    assert (0 <= hi).
    { destruct (Z.lt_ge_cases hi 0) as [Hneg|]; [|assumption].
      rewrite Z.pow_neg_r in H2 by assumption. lia. }
    assert (2 ^ hi <= 2 ^ (d - 1)) by (apply Z.pow_le_mono_r; lia). lia.
Qed.

(** *** The quotient of two counts *)

Lemma quotient_bracket (e t : nat) :
  0 < Z.of_nat e < 2 ^ 32 ->
  0 < Z.of_nat t < 2 ^ 32 ->
  exists m1 k1,
    Prim2SF (PrimFloat.div (JS.number e) (JS.number t)) = S754_finite false m1 (- k1)
    /\ 2 ^ 52 <= Zpos m1 < 2 ^ 53
    /\ 20 <= k1 <= 84
    /\ (Zpos m1 - 1) * Z.of_nat t <= Z.of_nat e * 2 ^ k1 <= (Zpos m1 + 1) * Z.of_nat t.
Proof.
  intros He Ht.
  set (E := Z.of_nat e) in *. set (T := Z.of_nat t) in *.
  destruct (number_spec e) as (mx & Hx & Hmx & Rx); [fold E; lia|].
  destruct (number_spec t) as (my & Hy & Hmy & Ry); [fold T; lia|].
  fold E in Hx, Hmx. fold T in Hy, Hmy.
  assert (Hde : 1 <= Zdigits2 E <= 32) by (apply (Zdigits2_range E 0 32); lia).
  assert (Hdt : 1 <= Zdigits2 T <= 32) by (apply (Zdigits2_range T 0 32); lia).
  set (de := Zdigits2 E) in *. set (dt := Zdigits2 T) in *.
  rewrite FloatAxioms.div_spec, Hx, Hy. unfold SF64div, SFdiv, SFdiv_core_binary.
  rewrite (Zdigits2_53 (Zpos mx) Rx), (Zdigits2_53 (Zpos my) Ry).
  replace (53 + (de - 53) - (53 + (dt - 53))) with (de - dt) by lia.
  rewrite fexp_normal by lia.
  replace (Z.min (de - dt - 53) (de - 53 - (dt - 53))) with (de - dt - 53) by lia.
  replace (de - 53 - (dt - 53) - (de - dt - 53)) with 53 by lia.
  cbv iota. rewrite Z.shiftl_mul_pow2 by lia.
  set (N := Zpos mx * 2 ^ 53).
  pose proof (Z.div_eucl_eq N (Zpos my) ltac:(lia)) as Hdiv.
  pose proof (Z.mod_pos_bound N (Zpos my) ltac:(lia)) as Hmod.
  unfold Z.modulo in Hmod.
  destruct (Z.div_eucl N (Zpos my)) as [q r]. cbn [xorb].
  assert (Hq : 2 ^ 52 <= q < 2 ^ 54).
  { unfold N in Hdiv. change (2 ^ 54) with (2 * 2 ^ 53). nia. }
  assert (Hdq : 53 <= Zdigits2 q <= 54) by (apply (Zdigits2_range q 52 54); lia).
  destruct (binary_round_aux_bracket q (de - dt - 53) (new_location (Zpos my) r))
    as (m1 & e1 & Hr & Rm & Re & Blo & Bhi); [lia | lia | lia |].
  rewrite Hr.
  exists m1, (- e1). rewrite Z.opp_involutive.
  split; [reflexivity|]. split; [exact Rm|]. split; [lia|].
  set (c := e1 - (de - dt - 53)) in *.
  assert (Hc : 0 <= c <= 2) by (unfold c; lia).
  set (sT := 2 ^ (53 - dt)). set (w := 2 ^ c) in *.
  assert (HsT : 0 < sT) by (apply Z.pow_pos_nonneg; lia).
  assert (Hw : 0 < w) by (apply Z.pow_pos_nonneg; lia).
  assert (HN : N = E * 2 ^ (- e1) * (w * sT)).
  { unfold N, w, sT. rewrite Hmx.
    rewrite <- !Z.mul_assoc, <- !Z.pow_add_r by lia.
    f_equal. f_equal. unfold c. lia. }
  assert (Hmy' : Zpos my * w = T * (w * sT)) by (rewrite Hmy; fold sT; lia).
  assert (Hws : 0 < w * sT) by lia.
  assert (Hlow : Zpos my * ((Zpos m1 - 1) * w) <= Zpos my * q)
    by (apply Z.mul_le_mono_nonneg_l; [lia | exact Blo]).
  assert (Hhigh : Zpos my * (q + 1) <= Zpos my * ((Zpos m1 + 1) * w))
    by (apply Z.mul_le_mono_nonneg_l; [lia | exact Bhi]).
  split.
  - apply Z.mul_le_mono_pos_r with (p := w * sT); [exact Hws|].
    rewrite <- HN.
    replace ((Zpos m1 - 1) * T * (w * sT)) with (Zpos my * ((Zpos m1 - 1) * w))
      by (rewrite <- (Z.mul_assoc _ T), <- Hmy'; ring).
    lia.
  - apply Z.mul_le_mono_pos_r with (p := w * sT); [exact Hws|].
    rewrite <- HN.
    replace ((Zpos m1 + 1) * T * (w * sT)) with (Zpos my * ((Zpos m1 + 1) * w))
      by (rewrite <- (Z.mul_assoc _ T), <- Hmy'; ring).
    lia.
Qed.

(** *** Multiplying by 100 *)

Lemma hundred_spec : Prim2SF 100%float = S754_finite false 7036874417766400 (-46).
Proof. vm_compute. reflexivity. Qed.

Lemma product_bracket (x : float) (m1 : positive) (k1 : Z) :
  Prim2SF x = S754_finite false m1 (- k1) ->
  2 ^ 52 <= Zpos m1 < 2 ^ 53 ->
  20 <= k1 <= 84 ->
  exists m2 k2,
    Prim2SF (PrimFloat.mul x 100%float) = S754_finite false m2 (- k2)
    /\ 2 ^ 52 <= Zpos m2 < 2 ^ 53
    /\ 12 <= k2 <= 78
    /\ (Zpos m2 - 1) * 2 ^ k1 <= 100 * Zpos m1 * 2 ^ k2 <= (Zpos m2 + 1) * 2 ^ k1.
Proof.
  intros Hx Rm Rk.
  rewrite FloatAxioms.mul_spec, Hx, hundred_spec. unfold SF64mul, SFmul. cbn [xorb].
  rewrite Pos2Z.inj_mul.
  change (Zpos 7036874417766400) with (100 * 2 ^ 46).
  set (M := Zpos m1 * (100 * 2 ^ 46)).
  assert (HM : 2 ^ 104 <= M < 2 ^ 106).
  { unfold M. change (2 ^ 104) with (2 ^ 52 * (64 * 2 ^ 46)).
    change (2 ^ 106) with (2 ^ 53 * (128 * 2 ^ 46)). nia. }
  assert (Hd : 105 <= Zdigits2 M <= 106) by (apply (Zdigits2_range M 104 106); lia).
  destruct (binary_round_aux_bracket M (- k1 + -46) loc_Exact)
    as (m2 & e2 & Hr & Rm2 & Re & Blo & Bhi); [lia | lia | lia |].
  rewrite Hr.
  exists m2, (- e2). rewrite Z.opp_involutive.
  split; [reflexivity|]. split; [exact Rm2|]. split; [lia|].
  set (w := 2 ^ (e2 - (- k1 + -46))) in *. set (D := 2 ^ (- e2)). set (G := 2 ^ k1).
  assert (HD : 0 < D) by (apply Z.pow_pos_nonneg; lia).
  assert (HG : 0 < G) by (apply Z.pow_pos_nonneg; lia).
  assert (HwD : w * D = G * 2 ^ 46).
  { unfold w, D, G. rewrite <- !Z.pow_add_r by lia. f_equal. lia. }
  assert (HMD : M * D = 100 * Zpos m1 * D * 2 ^ 46) by (unfold M; lia).
  assert (H46 : 0 < 2 ^ 46) by reflexivity.
  split.
  - apply Z.mul_le_mono_pos_r with (p := 2 ^ 46); [exact H46|].
    rewrite <- HMD.
    replace ((Zpos m2 - 1) * G * 2 ^ 46) with ((Zpos m2 - 1) * w * D)
      by (rewrite <- !Z.mul_assoc, HwD; reflexivity).
    apply Z.mul_le_mono_nonneg_r; [lia | exact Blo].
  - apply Z.mul_le_mono_pos_r with (p := 2 ^ 46); [exact H46|].
    rewrite <- HMD.
    replace ((Zpos m2 + 1) * G * 2 ^ 46) with ((Zpos m2 + 1) * w * D)
      by (rewrite <- !Z.mul_assoc, HwD; reflexivity).
    apply Z.mul_le_mono_nonneg_r; lia.
Qed.

(** *** From the two brackets to the rounded quotient *)

Lemma rounding_core (E T m1 m2 G D : Z) :
  0 < E < 2 ^ 32 -> 0 < T ->
  2 ^ 52 <= m1 < 2 ^ 53 -> 2 ^ 52 <= m2 ->
  0 < G -> 0 < D ->
  (m1 - 1) * T <= E * G <= (m1 + 1) * T ->
  (m2 - 1) * G <= 100 * m1 * D <= (m2 + 1) * G ->
  (2 * m2 + D) / (2 * D) = (200 * E + T) / (2 * T)
  \/ ((2 * m2 + D) / (2 * D) = (200 * E + T) / (2 * T) - 1
      /\ 200 * E + T = 2 * T * ((200 * E + T) / (2 * T))).
Proof.
  intros HE HT Hm1 Hm2 HG HD [B1lo B1hi] [B2lo B2hi].
  set (c := 2 ^ 52) in *. assert (Hc : c = 4503599627370496) by reflexivity.
  assert (H32 : 2 ^ 32 = 4294967296) by reflexivity. rewrite H32 in HE.
  assert (H53 : 2 ^ 53 = 2 * c) by reflexivity. rewrite H53 in Hm1.
  (* the step sizes are small against the values *)
  assert (HTG : (c - 1) * T <= E * G) by nia.
  assert (HGD : G <= 201 * D).
  { destruct (Z.le_gt_cases G (201 * D)) as [|Hgt]; [assumption|]. exfalso.
    assert ((c - 1) * G <= 100 * m1 * D) by nia.
    assert (100 * m1 * D < 200 * c * D) by nia.
    assert ((c - 1) * (201 * D) < (c - 1) * G) by nia.
    nia. }
  assert (HGDpos : 0 < G * D) by (apply Z.mul_pos_pos; assumption).
  assert (Hsmall : T * (200 * D + 2 * G) < D * G).
  { apply Z.mul_lt_mono_pos_l with (p := c - 1); [lia|].
    assert (S1 : (c - 1) * T * (200 * D + 2 * G) <= E * G * (200 * D + 2 * G))
      by (apply Z.mul_le_mono_nonneg_r; [lia | exact HTG]).
    assert (S2 : E * G * (200 * D + 2 * G) <= E * G * (602 * D))
      by (apply Z.mul_le_mono_nonneg_l; [apply Z.mul_nonneg_nonneg; lia | lia]).
    assert (S3 : E * (G * D) < 4294967296 * (G * D))
      by (apply Z.mul_lt_mono_pos_r; [exact HGDpos | lia]).
    lia. }
  (* the computed value is within half a unit of 100 E / T, scaled by 2 T D *)
  assert (Hnear : - D < 2 * T * m2 - 200 * E * D < D).
  { assert (F1 : 2 * T * ((m2 - 1) * G) <= 2 * T * (100 * m1 * D))
      by (apply Z.mul_le_mono_nonneg_l; [lia | exact B2lo]).
    assert (F2 : 200 * D * ((m1 - 1) * T) <= 200 * D * (E * G))
      by (apply Z.mul_le_mono_nonneg_l; [lia | exact B1lo]).
    assert (F3 : 2 * T * (100 * m1 * D) <= 2 * T * ((m2 + 1) * G))
      by (apply Z.mul_le_mono_nonneg_l; [lia | exact B2hi]).
    assert (F4 : 200 * D * (E * G) <= 200 * D * ((m1 + 1) * T))
      by (apply Z.mul_le_mono_nonneg_l; [lia | exact B1hi]).
    assert (U : (2 * T * m2 - 200 * E * D) * G < D * G) by lia.
    assert (L : (- D) * G < (2 * T * m2 - 200 * E * D) * G) by lia.
    split.
    - apply (Z.mul_lt_mono_pos_r G); assumption.
    - apply (Z.mul_lt_mono_pos_r G); assumption. }
  set (p := (2 * m2 + D) / (2 * D)). set (r := (200 * E + T) / (2 * T)).
  assert (Hp : 2 * D * p <= 2 * m2 + D < 2 * D * (p + 1)).
  { unfold p. pose proof (Z.mul_div_le (2 * m2 + D) (2 * D) ltac:(lia)).
    pose proof (Z.mul_succ_div_gt (2 * m2 + D) (2 * D) ltac:(lia)). lia. }
  assert (Hr : 2 * T * r <= 200 * E + T < 2 * T * (r + 1)).
  { unfold r. pose proof (Z.mul_div_le (200 * E + T) (2 * T) ltac:(lia)).
    pose proof (Z.mul_succ_div_gt (200 * E + T) (2 * T) ltac:(lia)). lia. }
  assert (Hup : 2 * T * p <= 200 * E + T).
  { assert (F : T * (2 * D * p) <= T * (2 * m2 + D))
      by (apply Z.mul_le_mono_nonneg_l; [lia | apply Hp]).
    assert (H : D * (2 * T * p) < D * (200 * E + T + 1)) by lia.
    apply Z.mul_lt_mono_pos_l in H; [lia | exact HD]. }
  assert (Hdown : 200 * E + T <= 2 * T * (p + 1)).
  { assert (F : T * (2 * m2 + D) < T * (2 * D * (p + 1)))
      by (apply Z.mul_lt_mono_pos_l; [exact HT | apply Hp]).
    assert (H : D * (200 * E + T - 1) < D * (2 * T * (p + 1))) by lia.
    apply Z.mul_lt_mono_pos_l in H; [lia | exact HD]. }
  assert (Hle : p <= r).
  { assert (H : 2 * T * p < 2 * T * (r + 1)) by lia.
    apply Z.mul_lt_mono_pos_l in H; lia. }
  assert (Hge : r - 1 <= p).
  { assert (H : 2 * T * r <= 2 * T * (p + 1)) by lia.
    apply Z.mul_le_mono_pos_l in H; lia. }
  destruct (Z.eq_dec p r) as [Heq | Hne]; [left; exact Heq | right].
  assert (Hp1 : p = r - 1) by lia.
  split; [exact Hp1|].
  replace (p + 1) with r in Hdown by lia. lia.
Qed.

(** *** The percentage *)

Lemma Math_round_finite (x : float) (m : positive) (k : Z) :
  Prim2SF x = S754_finite false m (- k) ->
  1 <= k ->
  JS.Math_round x = (2 * Zpos m + 2 ^ k) / (2 * 2 ^ k).
Proof.
  intros Hx Hk. unfold JS.Math_round. rewrite Hx.
  replace (0 <=? - k) with false by (symmetry; apply Z.leb_gt; lia).
  rewrite Z.opp_involutive.
  replace (1 - - k) with (Z.succ k) by lia.
  rewrite Z.pow_succ_r by lia. reflexivity.
Qed.

Lemma Math_round_zero (x : float) (s : bool) :
  Prim2SF x = S754_zero s -> JS.Math_round x = 0.
Proof. intros Hx. unfold JS.Math_round. rewrite Hx. reflexivity. Qed.

Lemma number_0_spec : Prim2SF (JS.number 0) = S754_zero false.
Proof. vm_compute. reflexivity. Qed.

(** For array lengths, which are below [2^32], the percentage computed on
    doubles is the exact quotient rounded half up, or the integer just
    below it when the quotient lies exactly half-way between two
    integers. *)
Lemma double_percentage_rounds (enriched total : nat) :
  0 < Z.of_nat total < 2 ^ 32 ->
  Z.of_nat enriched < 2 ^ 32 ->
  double_percentage enriched total = rounded_percentage enriched total
  \/ (double_percentage enriched total = rounded_percentage enriched total - 1
      /\ 200 * Z.of_nat enriched + Z.of_nat total
         = 2 * Z.of_nat total * rounded_percentage enriched total).
Proof.
  intros Ht He.
  assert (Hr : rounded_percentage enriched total
               = (200 * Z.of_nat enriched + Z.of_nat total) / (2 * Z.of_nat total)).
  { unfold rounded_percentage. destruct total; [cbn in Ht; lia | reflexivity]. }
  rewrite Hr. unfold double_percentage.
  destruct enriched as [|e'].
  - left.
    destruct (number_spec total) as (my & Hy & _); [lia|].
    rewrite (Math_round_zero _ false).
    + cbn [Z.of_nat]. rewrite Z.mul_0_r, Z.add_0_l. symmetry. apply Z.div_small. lia.
    + rewrite FloatAxioms.mul_spec, FloatAxioms.div_spec, number_0_spec, Hy, hundred_spec.
      reflexivity.
  - set (enriched := S e') in *.
    destruct (quotient_bracket enriched total) as (m1 & k1 & Hq & Rm1 & Rk1 & B1);
      [unfold enriched; lia | lia |].
    destruct (product_bracket _ m1 k1 Hq Rm1 Rk1) as (m2 & k2 & Hp & Rm2 & Rk2 & B2).
    rewrite (Math_round_finite _ m2 k2 Hp ltac:(lia)).
    apply (rounding_core (Z.of_nat enriched) (Z.of_nat total) (Zpos m1) (Zpos m2)
             (2 ^ k1) (2 ^ k2)); try assumption; try lia;
      apply Z.pow_pos_nonneg; lia.
Qed.

(** C8, amended: when both counting queries answer, with row counts below
    [2^32] as array lengths are, [getEnrichmentStats] returns normally; its
    percentage is [0] when the total is [0], and otherwise it is
    [100 * enriched / total] rounded to the nearest integer, half-way
    values going up, or the integer just below that when the quotient lies
    exactly half-way between two integers. *)
Theorem stats_percentage_rounded w s r1 r2 :
  from_Forskolor (supabase w) totalPreschools_query = Fulfilled r1 ->
  from_preschool_google_data (supabase w) enrichedPreschools_query = Fulfilled r2 ->
  Z.of_nat (JS.length_or_0 (Supabase.data r1)) < 2 ^ 32 ->
  Z.of_nat (JS.length_or_0 (Supabase.data r2)) < 2 ^ 32 ->
  exists stats,
    completion_of (getEnrichmentStats w s) = Normal stats
    /\ EnrichmentStats.total stats = JS.length_or_0 (Supabase.data r1)
    /\ EnrichmentStats.enriched stats = JS.length_or_0 (Supabase.data r2)
    /\ (EnrichmentStats.total stats = 0%nat -> EnrichmentStats.percentage stats = 0)
    /\ (EnrichmentStats.percentage stats
        = rounded_percentage (EnrichmentStats.enriched stats) (EnrichmentStats.total stats)
        \/ (EnrichmentStats.percentage stats
            = rounded_percentage (EnrichmentStats.enriched stats)
                (EnrichmentStats.total stats) - 1
            /\ 200 * Z.of_nat (EnrichmentStats.enriched stats)
               + Z.of_nat (EnrichmentStats.total stats)
               = 2 * Z.of_nat (EnrichmentStats.total stats)
                 * rounded_percentage (EnrichmentStats.enriched stats)
                     (EnrichmentStats.total stats))).
Proof.
  intros Q1 Q2 B1 B2.
  unfold getEnrichmentStats, try_catch, bind, select_Forskolor,
    select_preschool_google_data, emit, await, ret.
  rewrite Q1, Q2. cbn [completion_of snd fst app].
  eexists. split; [reflexivity|].
  cbn [EnrichmentStats.total EnrichmentStats.enriched EnrichmentStats.percentage].
  split; [reflexivity|]. split; [reflexivity|].
  set (t := JS.length_or_0 (Supabase.data r1)) in *.
  set (e := JS.length_or_0 (Supabase.data r2)) in *.
  destruct (Nat.eqb_spec t 0) as [Hz | Hnz].
  - split; [reflexivity|]. left. rewrite Hz. reflexivity.
  - split; [intros Hz; contradiction|].
    apply (double_percentage_rounds e t); lia.
Qed.

Lemma stats_percentage_rounded_witness :
  exists stats,
    completion_of (getEnrichmentStats Inputs.twenty_three_of_forty EnrichmentProgress.initial)
    = Normal stats
    /\ EnrichmentStats.total stats = 40%nat
    /\ EnrichmentStats.enriched stats = 23%nat
    /\ (EnrichmentStats.total stats = 0%nat -> EnrichmentStats.percentage stats = 0)
    /\ (EnrichmentStats.percentage stats
        = rounded_percentage (EnrichmentStats.enriched stats) (EnrichmentStats.total stats)
        \/ (EnrichmentStats.percentage stats
            = rounded_percentage (EnrichmentStats.enriched stats)
                (EnrichmentStats.total stats) - 1
            /\ 200 * Z.of_nat (EnrichmentStats.enriched stats)
               + Z.of_nat (EnrichmentStats.total stats)
               = 2 * Z.of_nat (EnrichmentStats.total stats)
                 * rounded_percentage (EnrichmentStats.enriched stats)
                     (EnrichmentStats.total stats))).
Proof.
  apply (stats_percentage_rounded Inputs.twenty_three_of_forty EnrichmentProgress.initial
           {| Supabase.data := Some (Inputs.preschools 40); Supabase.error := None |}
           {| Supabase.data := Some (map (Inputs.google_data 0%Z) (seq 0 23));
              Supabase.error := None |});
    reflexivity.
Defined.

End Doubles.
